(** * Linkwatch: registry store, HTTP probe and start-up code

    A shallow embedding of the Go packages [main], [models], [storage],
    [checker] and [api] of the linkwatch service, and the properties of its
    specification settled against them.

    Conventions of the embedding:
    - a Go [string] is a [string] (a sequence of bytes);
    - a Go [int] is a [Z] in the range of 64 bits, wrapped where the program
      computes with it;
    - a [time.Time] that the program always takes in UTC (the created_at of
      a target and of a key) is a [Z], the nanoseconds since the Unix epoch
      that [UnixNano] returns; one that keeps the zone it was made in (the
      checked_at of a result, the [since] of a query, the cutoff of the
      maintenance call) is a [gotime.Time], the instant with the offset of
      the zone;
    - a nil-able pointer ([*string], [*int]) is an [option];
    - a run-time panic is [None] in the [option] monad of the function that
      can raise it;
    - SQL tables are lists of rows in insertion order, the table with a
      primary key used as a dictionary is a [gmap];
    - functions of Go's standard library whose code is not part of the
      repository ([url.Parse], [URL.String], [time.Format], the text the
      database driver stores for a [time.Time], the comparison the SQL
      engine applies to a bound timestamp, the answers of the network) are
      parameters of the definitions that call them. *)

From stdpp Require Import base strings list gmap sorting pretty.
From Stdlib Require Import Ascii ZArith Lia.

Local Open Scope Z_scope.

(** ** Go's string primitives used by the program *)

Module gostr.

(** [s[:n]]: panics when [n] exceeds [len(s)]. *)
Definition slice_to (s : string) (n : nat) : option string :=
  if decide (n ≤ String.length s)%nat then Some (String.substring 0 n s) else None.

(** [s[n:]]: panics when [n] exceeds [len(s)]. *)
Definition slice_from (s : string) (n : nat) : option string :=
  if decide (n ≤ String.length s)%nat
  then Some (String.substring n (String.length s - n) s) else None.

(** [strings.HasSuffix]:
    [len(s) >= len(suffix) && s[len(s)-len(suffix):] == suffix]. *)
Definition HasSuffix (s suffix : string) : bool :=
  bool_decide (String.length suffix ≤ String.length s)%nat
  && bool_decide (String.substring (String.length s - String.length suffix)
                    (String.length suffix) s = suffix).

(** [strings.TrimSuffix]: [s[:len(s)-len(suffix)]] when [s] has the suffix,
    [s] otherwise. *)
Definition TrimSuffix (s suffix : string) : string :=
  if HasSuffix s suffix
  then String.substring 0 (String.length s - String.length suffix) s
  else s.

(** [strings.ToLower] on one byte. Only the ASCII letters are mapped: the
    embedding follows Go on ASCII text and leaves every other byte as it is. *)
Definition lower_ascii (c : Ascii.ascii) : Ascii.ascii :=
  let n := Ascii.nat_of_ascii c in
  if decide (65 ≤ n ≤ 90)%nat then Ascii.ascii_of_nat (n + 32) else c.

Fixpoint ToLower (s : string) : string :=
  match s with
  | EmptyString => EmptyString
  | String c s' => String (lower_ascii c) (ToLower s')
  end.

(** [strings.Split(s, sep)] for a separator of one byte, the only use the
    program makes of it: the pieces between the occurrences of [sep], so one
    piece more than there are occurrences. [cur] is the piece being read,
    reversed. *)
Fixpoint split_go (sep : Ascii.ascii) (cur : string) (s : string) : list string :=
  match s with
  | EmptyString => [String.rev cur]
  | String c s' =>
      if decide (c = sep) then String.rev cur :: split_go sep EmptyString s'
      else split_go sep (String c cur) s'
  end.

Definition Split1 (s : string) (sep : Ascii.ascii) : list string :=
  split_go sep EmptyString s.

(** Number of occurrences of a byte. *)
Fixpoint count_byte (sep : Ascii.ascii) (s : string) : nat :=
  match s with
  | EmptyString => 0%nat
  | String c s' => ((if decide (c = sep) then 1 else 0) + count_byte sep s')%nat
  end.

(** [fmt.Sprintf("%d", n)]. *)
Definition itoa (n : Z) : string := pretty n.

(** A Go [int] (64 bits, two's complement) from the exact result of an
    arithmetic operation. *)
Definition int (z : Z) : Z := (z + 2 ^ 63) mod 2 ^ 64 - 2 ^ 63.

(** [fmt.Sprintf("%q", s)] for a text in which the verb has nothing to escape:
    the text between two double quotes. *)
Definition quote (s : string) : string :=
  String (ascii_of_nat 34) (s +:+ String (ascii_of_nat 34) EmptyString).

End gostr.

(** ** Package main: choice of the database driver *)

Module main.

(** [initDB], up to the call [sql.Open(driver, dsn)]: the result is the pair
    [(driver, dsn)] handed to [sql.Open], or [None] when a slice expression
    panics. The [||] of the second test evaluates its right operand only
    when the left one is false. *)
Definition initDB (databaseURL : string) : option (string * string) :=
  let databaseURL :=
    if decide (databaseURL = "") then "sqlite3://linkwatch.db" else databaseURL in
  p9 ← gostr.slice_to databaseURL 9;
  if decide (p9 = "sqlite3://") then
    dsn ← gostr.slice_from databaseURL 9;
    Some ("sqlite3", dsn)
  else
    p11 ← gostr.slice_to databaseURL 11;
    if decide (p11 = "postgres://") then Some ("postgres", databaseURL)
    else
      p13 ← gostr.slice_to databaseURL 13;
      if decide (p13 = "postgresql://") then Some ("postgres", databaseURL)
      else Some ("sqlite3", databaseURL).

End main.

(** ** Package time: the values of [time.Time]

    What the program and the database driver read of a [time.Time]: the
    instant, and the offset of the zone the value was made in. Two values
    with the same instant and different zones are different values, and the
    driver writes them as different texts. *)

Module gotime.

Record Time := mkTime {
  UnixNano : Z;   (* the instant: nanoseconds since the Unix epoch *)
  offset : Z;     (* the zone: seconds east of UTC *)
}.

#[global] Instance Time_eq_dec : EqDecision Time.
Proof. solve_decision. Defined.

(** [time.Time{}], the zero value: January 1 of the year 1, 00:00 UTC. *)
Definition zero : Time := mkTime (-62135596800000000000) 0.

(** The instant [nsec] in UTC: [time.Unix(0, nsec).UTC()]. *)
Definition utc (nsec : Z) : Time := mkTime nsec 0.

End gotime.

(** ** Package models *)

Module models.

Record Target := mkTarget {
  ID : string;
  URL : string;
  CreatedAt : Z;
}.

Record TargetList := mkTargetList {
  Items : list Target;
  NextPageToken : string;   (* "" when there is no next page *)
}.

Record CheckResult := mkCheckResult {
  CheckedAt : gotime.Time;
  StatusCode : option Z;
  LatencyMs : Z;
  Error : option string;
}.

#[global] Instance Target_eq_dec : EqDecision Target.
Proof. solve_decision. Defined.

Record CheckResultList := mkCheckResultList {
  ResultItems : list CheckResult;
}.

Record CreateTargetRequest := mkCreateTargetRequest {
  RequestURL : string;
}.

Record CreateTargetResponse := mkCreateTargetResponse {
  ResponseID : string;
  ResponseURL : string;
  ResponseCreatedAt : Z;
}.

End models.

(** ** Package net/url: the parsed form of a URL

    The fields of Go's [url.URL]. [url.Parse] and [URL.String] are library
    code: the program is embedded over any pair of them. *)

Module neturl.

Record Userinfo := mkUserinfo {
  username : string;
  password : string;
  passwordSet : bool;
}.

Record URL := mkURL {
  Scheme : string;
  Opaque : string;
  User : option Userinfo;
  Host : string;          (* host or host:port *)
  Path : string;
  RawPath : string;
  OmitHost : bool;
  ForceQuery : bool;
  RawQuery : string;
  Fragment : string;
  RawFragment : string;
}.

(** The library's two functions, as the program sees them: [Parse] returns
    the parsed URL or an error message. *)
Class Lib := mkLib {
  Parse : string → URL + string;
  String : URL → string;
}.

End neturl.

(** ** Package storage *)

Module storage.

(** An [error] value, by its message. *)
Inductive result (A : Type) :=
| Ok (a : A)
| Err (msg : string).
Arguments Ok {A} a.
Arguments Err {A} msg.

(** *** The schema of [Migrate]

    [targets(id PRIMARY KEY, url UNIQUE, canonical_url UNIQUE, created_at)],
    [check_results(target_id, checked_at, status_code, latency_ms, error)],
    [idempotency_keys(key PRIMARY KEY, target_id, created_at)]. *)

Record target_row := mkTargetRow {
  id : string;
  url : string;
  canonical_url : string;
  created_at : Z;
}.

Record key_row := mkKeyRow {
  target_id : string;
  key_created_at : Z;
}.

Record Storage := mkStorage {
  targets : list target_row;                          (* in insertion order *)
  check_results : list (string * models.CheckResult); (* target_id, result *)
  idempotency_keys : gmap string key_row;             (* by key *)
}.

Definition empty : Storage := mkStorage [] [] ∅.

Definition with_targets (t : list target_row) (s : Storage) : Storage :=
  mkStorage t (check_results s) (idempotency_keys s).
Definition with_keys (k : gmap string key_row) (s : Storage) : Storage :=
  mkStorage (targets s) (check_results s) k.
Definition with_results (r : list (string * models.CheckResult)) (s : Storage) : Storage :=
  mkStorage (targets s) r (idempotency_keys s).

(** The columns [id, url, created_at] that every SELECT of the package scans
    into a [models.Target]. *)
Definition scan (r : target_row) : models.Target :=
  models.mkTarget (id r) (url r) (created_at r).

(** [SELECT ... FROM targets WHERE canonical_url = ?] read by [QueryRow]:
    the first row, or [sql.ErrNoRows]. *)
Definition select_by_canonical (s : Storage) (c : string) : option target_row :=
  snd <$> list_find (λ r, canonical_url r = c) (targets s).

(** [SELECT ... FROM targets WHERE id = ?]. *)
Definition select_by_id (s : Storage) (i : string) : option target_row :=
  snd <$> list_find (λ r, id r = i) (targets s).

(** [INSERT INTO targets]: refused when the primary key or one of the two
    UNIQUE columns is already present. *)
Definition insert_target (r : target_row) (s : Storage) : option Storage :=
  if decide (Exists (λ r', id r' = id r ∨ url r' = url r
                           ∨ canonical_url r' = canonical_url r) (targets s))
  then None
  else Some (with_targets (targets s ++ [r]) s).

(** [INSERT INTO idempotency_keys]: refused when the key is present. *)
Definition insert_key (k tid : string) (now : Z) (s : Storage) : option Storage :=
  match idempotency_keys s !! k with
  | Some _ => None
  | None => Some (with_keys (<[k := mkKeyRow tid now]> (idempotency_keys s)) s)
  end.

(** [INSERT OR IGNORE INTO idempotency_keys]: a present key keeps its row. *)
Definition insert_or_ignore_key (k tid : string) (now : Z) (s : Storage) : Storage :=
  match idempotency_keys s !! k with
  | Some _ => s
  | None => with_keys (<[k := mkKeyRow tid now]> (idempotency_keys s)) s
  end.

(** [generateID]: the prefix followed by the clock's [UnixNano] reading. *)
Definition generateID (prefix : string) (unix_nano : Z) : string :=
  prefix +:+ gostr.itoa unix_nano.

(** [CreateTarget]. The two readings of the clock ([generateID]'s and [now])
    are arguments. The whole body is one transaction: on an error the
    deferred [Rollback] leaves the store as it was. The engine itself does
    not fail: an INSERT is refused exactly when it breaks a constraint of the
    schema (foreign keys are not enforced, which is SQLite's default). The
    error of a refused INSERT is the driver's, and its text names the broken
    constraint in the driver's words; the embedding does not give that text:
    [constraint failed] stands for it, and the properties below only read
    that the call returned an error. *)
Definition CreateTarget (s : Storage) (unix_nano now : Z)
    (originalURL canonicalURL : string) (idempotencyKey : option string)
    : Storage * result (models.Target * bool) :=
  let targetID := generateID "t_" unix_nano in
  match select_by_canonical s canonicalURL with
  | Some existing =>
      (* Target exists, handle idempotency key if provided *)
      let s' := match idempotencyKey with
                | Some k => insert_or_ignore_key k (id existing) now s
                | None => s
                end in
      (s', Ok (scan existing, false))
  | None =>
      match idempotencyKey ≫= λ k, idempotency_keys s !! k with
      | Some rec =>
          (* Key exists, return existing target *)
          match select_by_id s (target_id rec) with
          | Some existing => (s, Ok (scan existing, false))
          | None => (s, Err "sql: no rows in result set")
          end
      | None =>
          (* Create new target *)
          match insert_target (mkTargetRow targetID originalURL canonicalURL now) s with
          | None => (s, Err "constraint failed")
          | Some s1 =>
              let new := models.mkTarget targetID originalURL now in
              match idempotencyKey with
              | None => (s1, Ok (new, true))
              | Some k =>
                  match insert_key k targetID now s1 with
                  | None => (s, Err "constraint failed")
                  | Some s2 => (s2, Ok (new, true))
                  end
              end
          end
      end
  end.

(** [SaveCheckResult]: append-only; the INSERT breaks no constraint. *)
Definition SaveCheckResult (s : Storage) (targetID : string) (r : models.CheckResult)
    : Storage :=
  with_results (check_results s ++ [(targetID, r)]) s.

(** The key [k] is recorded for a stored target that reads as [tgt]. *)
Definition bound (s : Storage) (k : string) (tgt : models.Target) : Prop :=
  ∃ row r,
    idempotency_keys s !! k = Some row
    ∧ select_by_id s (target_id row) = Some r
    ∧ scan r = tgt.

(** The calls that change the store, and a sequence of them. *)
Inductive call :=
| CallCreateTarget (unix_nano now : Z) (originalURL canonicalURL : string)
    (idempotencyKey : option string)
| CallSaveCheckResult (targetID : string) (r : models.CheckResult).

Definition run_call (s : Storage) (c : call) : Storage :=
  match c with
  | CallCreateTarget unix_nano now originalURL canonicalURL idempotencyKey =>
      (CreateTarget s unix_nano now originalURL canonicalURL idempotencyKey).1
  | CallSaveCheckResult targetID r => SaveCheckResult s targetID r
  end.

Definition run_calls (s : Storage) (calls : list call) : Storage :=
  foldl run_call s calls.

(** *** The LIKE operator

    [%] matches any run of bytes, [_] any one byte, every other byte matches
    itself up to the case of ASCII letters (SQLite's default). *)
Fixpoint like (p s : string) : bool :=
  match p with
  | EmptyString => bool_decide (s = EmptyString)
  | String c p' =>
      if decide (c = "%"%char) then
        (fix any (s : string) : bool :=
           like p' s || match s with
                        | EmptyString => false
                        | String _ s' => any s'
                        end) s
      else
        match s with
        | EmptyString => false
        | String d s' =>
            (bool_decide (c = "_"%char)
             || bool_decide (gostr.lower_ascii c = gostr.lower_ascii d))
            && like p' s'
        end
  end.

(** *** ORDER BY created_at, id *)
Definition row_leb (a b : target_row) : bool :=
  bool_decide (created_at a < created_at b)
  || (bool_decide (created_at a = created_at b) && String.leb (id a) (id b)).

Definition row_le (a b : target_row) : Prop := row_leb a b.

#[global] Instance row_le_dec : RelDecision row_le.
Proof. intros a b. unfold row_le. apply _. Defined.

(** [LIMIT n]: a negative [n] means no limit. *)
Definition sql_limit {A} (n : Z) (l : list A) : list A :=
  if decide (n < 0) then l else take (Z.to_nat n) l.

Section ListTargets.

(** [t.Format(time.RFC3339Nano)]. *)
Variable formatRFC3339Nano : Z → string.

(** How the engine compares the stored [created_at] of a row with the text
    bound to a [?] of the cursor condition. *)
Variable compare_created_at : Z → string → comparison.

(** [created_at > ? OR (created_at = ? AND id > ?)]. *)
Definition after_cursor (timestamp i : string) (r : target_row) : bool :=
  match compare_created_at (created_at r) timestamp with
  | Gt => true
  | Eq => String.ltb i (id r)
  | Lt => false
  end.

(** The WHERE clause that [ListTargets] builds. *)
Definition where_clause (host : option string) (pageToken : string)
    (r : target_row) : bool :=
  match host with
  | Some h => like ("%://" +:+ gostr.ToLower h +:+ "/%") (canonical_url r)
  | None => true
  end
  &&
  (if decide (pageToken = "") then true
   else
     (* Decode cursor *)
     match gostr.Split1 pageToken "_"%char with
     | [timestamp; i] => after_cursor timestamp i r
     | _ => true
     end).

(** [ListTargets]: [None] when a slice expression panics. *)
Definition ListTargets (s : Storage) (host : option string) (limit : Z)
    (pageToken : string) : option models.TargetList :=
  let rows :=
    sql_limit (gostr.int (limit + 1))
      (merge_sort row_le (filter (λ r, where_clause host pageToken r) (targets s))) in
  let targets := scan <$> rows in
  if decide (Z.of_nat (length targets) > limit) then
    (* targets[:limit] *)
    _ ← guard (0 ≤ limit);
    (* targets[limit-1] *)
    last ← (if decide (0 ≤ limit - 1) then targets !! Z.to_nat (limit - 1) else None);
    Some (models.mkTargetList (take (Z.to_nat limit) targets)
            (formatRFC3339Nano (models.CreatedAt last) +:+ "_" +:+ models.ID last))
  else Some (models.mkTargetList targets "").

End ListTargets.

(** *** CanonicalizeURL *)
Section CanonicalizeURL.

Context {lib : neturl.Lib}.

(** The body after the two checks. The function assigns to the fields
    [Scheme], [Host], [Fragment] and [Path] of [parsed], in this order;
    each [let] below is one assignment, and the URL that is printed has
    the last value of each field and every other field as parsed. *)
Definition canonical (parsed : neturl.URL) : neturl.URL :=
  (* Lowercase scheme and host *)
  let scheme := gostr.ToLower (neturl.Scheme parsed) in
  let host := gostr.ToLower (neturl.Host parsed) in
  (* Remove default ports *)
  let host :=
    if decide (scheme = "http") then
      if gostr.HasSuffix host ":80" then gostr.TrimSuffix host ":80" else host
    else if decide (scheme = "https") then
      if gostr.HasSuffix host ":443" then gostr.TrimSuffix host ":443" else host
    else host in
  (* Remove fragment *)
  let fragment := "" in
  (* Normalize path - remove trailing slash unless it's root *)
  let path :=
    if bool_decide (neturl.Path parsed ≠ "/") && gostr.HasSuffix (neturl.Path parsed) "/"
    then gostr.TrimSuffix (neturl.Path parsed) "/"
    else neturl.Path parsed in
  neturl.mkURL scheme (neturl.Opaque parsed) (neturl.User parsed) host path
    (neturl.RawPath parsed) (neturl.OmitHost parsed) (neturl.ForceQuery parsed)
    (neturl.RawQuery parsed) fragment (neturl.RawFragment parsed).

Definition CanonicalizeURL (rawURL : string) : result string :=
  match neturl.Parse rawURL with
  | inr err => Err err
  | inl parsed =>
      (* Ensure scheme is present *)
      if decide (neturl.Scheme parsed = "") then Err "missing scheme"
      else Ok (neturl.String (canonical parsed))
  end.

End CanonicalizeURL.

(** *** The other queries and the maintenance call

    Where ORDER BY leaves the order of two rows open, the rows come in the
    order the sort leaves them, and nothing below depends on it. *)

(** ORDER BY created_at. Every created_at is written by [CreateTarget], in
    UTC, so that the order of the stored texts is the order of the
    instants. *)
Definition created_le (a b : target_row) : Prop := created_at a ≤ created_at b.

#[global] Instance created_le_dec : RelDecision created_le.
Proof. intros a b. unfold created_le. apply _. Defined.

(** [GetAllTargets]. *)
Definition GetAllTargets (s : Storage) : list models.Target :=
  scan <$> merge_sort created_le (targets s).

Section timestamps.

(** The text the driver hands to the engine for a [time.Time], as a stored
    column and as the value of a [?]: the value printed in its own zone. The
    engine (SQLite) compares two such texts byte by byte; it never reads
    them as instants. *)
Variable timestamp_text : gotime.Time → string.

(** ORDER BY checked_at DESC, on the stored texts. *)
Definition checked_ge (a b : string * models.CheckResult) : Prop :=
  String.leb (timestamp_text (models.CheckedAt b.2))
    (timestamp_text (models.CheckedAt a.2)).

#[global] Instance checked_ge_dec : RelDecision checked_ge.
Proof. intros a b. unfold checked_ge. apply _. Defined.

(** [WHERE target_id = ?], and [AND checked_at >= ?] when [since] is given:
    the stored text against the text of [since]. *)
Definition result_selected (targetID : string) (since : option gotime.Time)
    (row : string * models.CheckResult) : bool :=
  bool_decide (row.1 = targetID)
  && match since with
     | Some t => String.leb (timestamp_text t) (timestamp_text (models.CheckedAt row.2))
     | None => true
     end.

(** [GetCheckResults]. *)
Definition GetCheckResults (s : Storage) (targetID : string)
    (since : option gotime.Time) (limit : Z) : models.CheckResultList :=
  models.mkCheckResultList
    (snd <$> sql_limit limit
               (merge_sort checked_ge
                  (filter (λ row, result_selected targetID since row) (check_results s)))).

(** [CleanupOldIdempotencyKeys]: DELETE ... WHERE created_at < ?, the stored
    text of the key (written in UTC by [CreateTarget]) against the text of
    [olderThan] in the zone [olderThan] is in. *)
Definition CleanupOldIdempotencyKeys (s : Storage) (olderThan : gotime.Time) : Storage :=
  with_keys
    (filter (λ kv, ¬ String.ltb (timestamp_text (gotime.utc (key_created_at kv.2)))
                       (timestamp_text olderThan))
       (idempotency_keys s)) s.

(** Every call that changes the store, and a sequence of them. *)
Inductive op :=
| OpCreateTarget (unix_nano now : Z) (originalURL canonicalURL : string)
    (idempotencyKey : option string)
| OpSaveCheckResult (targetID : string) (r : models.CheckResult)
| OpCleanupOldIdempotencyKeys (olderThan : gotime.Time).

Definition run_op (s : Storage) (o : op) : Storage :=
  match o with
  | OpCreateTarget unix_nano now originalURL canonicalURL idempotencyKey =>
      (CreateTarget s unix_nano now originalURL canonicalURL idempotencyKey).1
  | OpSaveCheckResult targetID r => SaveCheckResult s targetID r
  | OpCleanupOldIdempotencyKeys olderThan => CleanupOldIdempotencyKeys s olderThan
  end.

Definition run_ops (s : Storage) (ops : list op) : Storage := foldl run_op s ops.

End timestamps.

(** What the schema asks of the tables: the primary key and the two UNIQUE
    columns of [targets], and a stored target behind every recorded key. *)
Definition consistent (s : Storage) : Prop :=
  NoDup (id <$> targets s)
  ∧ NoDup (url <$> targets s)
  ∧ NoDup (canonical_url <$> targets s)
  ∧ ∀ k row, idempotency_keys s !! k = Some row →
             is_Some (select_by_id s (target_id row)).

(** The order of a listing, on what a listing returns. *)
Definition target_le (a b : models.Target) : Prop :=
  models.CreatedAt a < models.CreatedAt b
  ∨ (models.CreatedAt a = models.CreatedAt b ∧ String.le (models.ID a) (models.ID b)).

(** The rows a listing fetches: the selection of [matching] below, ordered,
    cut after [limit + 1] rows. *)
Definition fetched (compare_created_at : Z → string → comparison)
    (s : Storage) (host : option string) (limit : Z) (pageToken : string)
    : list target_row :=
  sql_limit (gostr.int (limit + 1))
    (merge_sort row_le
       (filter (λ r, where_clause compare_created_at host pageToken r) (targets s))).

(** The rows a listing selects, before ORDER BY and LIMIT. *)
Definition matching (compare_created_at : Z → string → comparison)
    (s : Storage) (host : option string) (pageToken : string) : list target_row :=
  filter (λ r, where_clause compare_created_at host pageToken r) (targets s).

End storage.

(** ** A model of the text the driver stores for a time

    The SQLite driver binds a [time.Time] as [t.Format] of the layout
    [2006-01-02 15:04:05.999999999-07:00]: the date and the time of day on
    the clock of the value's own zone, the nanoseconds without trailing
    zeros, and the offset of the zone. The layout is written out for the
    years 0 to 9999 and serves to run the queries on concrete times. *)

Module sqlite3.

(** [n] in decimal, padded with zeros to [width] digits. *)
Definition digits (width : nat) (n : Z) : string :=
  let s := pretty n in
  String.concat "" (replicate (width - String.length s) "0") +:+ s.

(** The civil date of a day counted from January 1, 1970. *)
Definition civil (day : Z) : Z * Z * Z :=
  let z := day + 719468 in
  let era := z / 146097 in
  let doe := z - era * 146097 in
  let yoe := (doe - doe / 1460 + doe / 36524 - doe / 146096) / 365 in
  let doy := doe - (365 * yoe + yoe / 4 - yoe / 100) in
  let mp := (5 * doy + 2) / 153 in
  let d := doy - (153 * mp + 2) / 5 + 1 in
  let m := if decide (mp < 10) then mp + 3 else mp - 9 in
  let y := yoe + era * 400 in
  (if decide (m ≤ 2) then y + 1 else y, m, d).

(** The layout [.999999999]: nothing for a whole second, else the
    nanoseconds without their trailing zeros. *)
Fixpoint trim_zeros (s : string) : string :=
  match s with
  | EmptyString => EmptyString
  | String c s' =>
      match trim_zeros s' with
      | EmptyString => if decide (c = "0"%char) then EmptyString else String c EmptyString
      | t => String c t
      end
  end.

Definition fraction (nsec : Z) : string :=
  if decide (nsec = 0) then "" else "." +:+ trim_zeros (digits 9 nsec).

(** The layout [-07:00]. *)
Definition zone (offset : Z) : string :=
  let minutes := Z.quot offset 60 in
  (if decide (minutes < 0) then "-" else "+")
  +:+ digits 2 (Z.abs minutes / 60) +:+ ":" +:+ digits 2 (Z.abs minutes mod 60).

(** The text of a [time.Time]. *)
Definition timestamp_text (t : gotime.Time) : string :=
  let sec := gotime.UnixNano t / 1000000000 in
  let nsec := gotime.UnixNano t mod 1000000000 in
  let wall := sec + gotime.offset t in
  let '(y, m, d) := civil (wall / 86400) in
  let s := wall mod 86400 in
  digits 4 y +:+ "-" +:+ digits 2 m +:+ "-" +:+ digits 2 d +:+ " "
  +:+ digits 2 (s / 3600) +:+ ":" +:+ digits 2 (s mod 3600 / 60) +:+ ":"
  +:+ digits 2 (s mod 60) +:+ fraction nsec +:+ zone (gotime.offset t).

End sqlite3.

(** ** A model of net/url

    [url.Parse] and [URL.String] written out for URLs that contain no
    percent-escape and no byte that [URL.String] would escape: on those, the
    raw and the decoded forms of every component coincide, so [RawPath] and
    [RawFragment] stay empty. It follows the library's order of work (cut the
    fragment, read the scheme, cut the query, split the authority from the
    path) and serves to run the program on concrete URLs. *)

Module urlmodel.

(** [strings.Cut] for a separator of one byte. *)
Fixpoint cut (sep : ascii) (s : string) : string * string * bool :=
  match s with
  | EmptyString => (EmptyString, EmptyString, false)
  | String c s' =>
      if decide (c = sep) then (EmptyString, s', true)
      else let '(b, a, f) := cut sep s' in (String c b, a, f)
  end.

(** Cut at the last occurrence: [s[:i]], [s[i+1:]] for [i = LastIndex(s, sep)]. *)
Definition cut_last (sep : ascii) (s : string) : string * string * bool :=
  let '(a, b, f) := cut sep (String.rev s) in
  if f then (String.rev b, String.rev a, true) else (s, EmptyString, false).

Definition is_alpha (c : ascii) : bool :=
  let n := nat_of_ascii c in
  bool_decide (97 ≤ n ≤ 122)%nat || bool_decide (65 ≤ n ≤ 90)%nat.

Definition is_digit (c : ascii) : bool :=
  let n := nat_of_ascii c in bool_decide (48 ≤ n ≤ 57)%nat.

Inductive scheme_scan := NoScheme | MissingScheme | SchemeEnds (i : nat).

Fixpoint scan_scheme (i : nat) (s : string) : scheme_scan :=
  match s with
  | EmptyString => NoScheme
  | String c s' =>
      if is_alpha c then scan_scheme (S i) s'
      else if is_digit c || bool_decide (c = "+"%char) || bool_decide (c = "-"%char)
              || bool_decide (c = "."%char)
      then (if decide (i = 0%nat) then NoScheme else scan_scheme (S i) s')
      else if decide (c = ":"%char)
      then (if decide (i = 0%nat) then MissingScheme else SchemeEnds i)
      else NoScheme
  end.

Definition getScheme (rawURL : string) : (string * string) + string :=
  match scan_scheme 0 rawURL with
  | NoScheme => inl (EmptyString, rawURL)
  | MissingScheme => inr "missing protocol scheme"
  | SchemeEnds i =>
      inl (String.substring 0 i rawURL,
           String.substring (S i) (String.length rawURL - S i) rawURL)
  end.

Fixpoint all_digits (s : string) : bool :=
  match s with
  | EmptyString => true
  | String c s' => is_digit c && all_digits s'
  end.

(** [validOptionalPort]: empty, or a colon followed by digits. *)
Definition validOptionalPort (port : string) : bool :=
  match port with
  | EmptyString => true
  | String c p => bool_decide (c = ":"%char) && all_digits p
  end.

Definition parseHost (host : string) : string + string :=
  match host with
  | String "["%char _ =>
      let '(_, after, found) := cut_last "]"%char host in
      if negb found then inr "missing ']' in host"
      else if validOptionalPort after then inl host
      else inr "invalid port after host"
  | _ =>
      let '(_, after, found) := cut_last ":"%char host in
      if found && negb (all_digits after) then inr "invalid port after host"
      else inl host
  end.

Definition parseAuthority (authority : string)
    : (option neturl.Userinfo * string) + string :=
  let '(userinfo, hostpart, found) := cut_last "@"%char authority in
  match parseHost (if found then hostpart else authority) with
  | inr e => inr e
  | inl host =>
      if found then
        let '(u, p, has_password) := cut ":"%char userinfo in
        inl (Some (neturl.mkUserinfo u p has_password), host)
      else inl (None, host)
  end.

Definition Parse (rawURL : string) : neturl.URL + string :=
  let '(u, frag, _) := cut "#"%char rawURL in
  if decide (u = "*") then
    inl (neturl.mkURL "" "" None "" "*" "" false false "" frag "")
  else
  match getScheme u with
  | inr e => inr e
  | inl (scheme, rest) =>
      let scheme := gostr.ToLower scheme in
      let '(rest, rawQuery, forceQuery) :=
        if gostr.HasSuffix rest "?" && bool_decide (gostr.count_byte "?"%char rest = 1%nat)
        then (String.substring 0 (String.length rest - 1) rest, EmptyString, true)
        else let '(r, q, _) := cut "?"%char rest in (r, q, false) in
      if negb (String.prefix "/" rest) && negb (bool_decide (scheme = "")) then
        inl (neturl.mkURL scheme rest None "" "" "" false forceQuery rawQuery frag "")
      else if negb (String.prefix "/" rest)
              && negb (bool_decide (gostr.count_byte ":"%char (cut "/"%char rest).1.1 = 0%nat))
      then inr "first path segment in URL cannot contain colon"
      else if (negb (bool_decide (scheme = "")) || negb (String.prefix "///" rest))
              && String.prefix "//" rest
      then
        let '(authority, path, found) :=
          cut "/"%char (String.substring 2 (String.length rest - 2) rest) in
        let path := if found then String "/"%char path else EmptyString in
        match parseAuthority authority with
        | inr e => inr e
        | inl (user, host) =>
            inl (neturl.mkURL scheme "" user host path "" false forceQuery rawQuery frag "")
        end
      else
        inl (neturl.mkURL scheme "" None "" rest ""
               (negb (bool_decide (scheme = "")) && String.prefix "/" rest)
               forceQuery rawQuery frag "")
  end.

Definition Userinfo_String (u : neturl.Userinfo) : string :=
  neturl.username u
  +:+ (if neturl.passwordSet u then ":" +:+ neturl.password u else "").

Definition String (u : neturl.URL) : string :=
  let head := if decide (neturl.Scheme u = "") then "" else neturl.Scheme u +:+ ":" in
  let body :=
    if decide (neturl.Opaque u = "") then
      let auth :=
        if bool_decide (neturl.Scheme u ≠ "") || bool_decide (neturl.Host u ≠ "")
           || bool_decide (neturl.User u ≠ None)
        then
          if neturl.OmitHost u && bool_decide (neturl.Host u = "")
             && bool_decide (neturl.User u = None)
          then ""
          else
            (if bool_decide (neturl.Host u ≠ "") || bool_decide (neturl.Path u ≠ "")
                || bool_decide (neturl.User u ≠ None)
             then "//" else "")
            +:+ match neturl.User u with
                | Some ui => Userinfo_String ui +:+ "@"
                | None => ""
                end
            +:+ neturl.Host u
        else "" in
      let path := neturl.Path u in
      let slash :=
        if bool_decide (path ≠ "") && negb (String.prefix "/" path)
           && bool_decide (neturl.Host u ≠ "")
        then "/" else "" in
      let dot :=
        if bool_decide (head +:+ auth +:+ slash = "")
           && negb (bool_decide (gostr.count_byte ":"%char (cut "/"%char path).1.1 = 0%nat))
        then "./" else "" in
      auth +:+ slash +:+ dot +:+ path
    else neturl.Opaque u in
  head +:+ body
  +:+ (if neturl.ForceQuery u || bool_decide (neturl.RawQuery u ≠ "")
       then "?" +:+ neturl.RawQuery u else "")
  +:+ (if decide (neturl.Fragment u = "") then "" else "#" +:+ neturl.Fragment u).

Definition lib : neturl.Lib := neturl.mkLib Parse String.

End urlmodel.

(** ** Package checker *)

Module checker.

Import models.

(** An [error] value: its dynamic type, which [isNetworkError] inspects,
    and the text of [err.Error()]. *)
Inductive error_type := NetOpError | NetDNSError | URLError | OtherError.

Record error := mkError {
  dyn : error_type;
  msg : string;
}.

#[global] Instance error_type_eq_dec : EqDecision error_type.
Proof. solve_decision. Defined.
#[global] Instance error_eq_dec : EqDecision error.
Proof. solve_decision. Defined.

Definition isNetworkError (err : error) : bool :=
  match dyn err with
  | NetOpError => true
  | NetDNSError => true
  | _ => false
  end.

(** What [client.Do] reports when the context is cancelled while the request
    is executed: the library wraps [context.Canceled] in a [*url.Error], which
    prints the operation, the quoted URL and the cause. *)
Definition context_canceled (targetURL : string) : error :=
  mkError URLError ("Get " +:+ gostr.quote targetURL +:+ ": context canceled").

(** The answer to one request. *)
Inductive do_outcome :=
| Response (status : Z)
| Failed (err : error).

(** The branch a [select] between [ctx.Done()] and another channel takes. *)
Inductive wait_outcome := Proceeded | Cancelled.

(** What happens around one probe: the answers of the world at each point
    where the probe waits, reads the clock or calls the library. *)
Record World := mkWorld {
  gate_wait : wait_outcome;                (* the select on the per-host gate *)
  backoff_wait : nat → wait_outcome;       (* the select before attempt i > 0 *)
  new_request : string → option error;     (* http.NewRequestWithContext: its error *)
  client_do : nat → do_outcome;            (* c.client.Do during attempt i *)
  clock_start : gotime.Time;               (* time.Now() before the probe *)
  elapsed_ms : Z;                          (* time.Since(start).Milliseconds() *)
}.

(** The steps of a probe that can be seen from outside. *)
Inductive event :=
| EvBackoff (attempt : nat) (duration_ms : Z) (w : wait_outcome)
| EvNewRequest (attempt : nat) (err : option error)
| EvDo (attempt : nat) (o : do_outcome).

(** *** The redirect policy installed by [New] *)
Definition CheckRedirect (req : string) (via : list string) : option error :=
  if decide (5 ≤ length via)%nat
  then Some (mkError OtherError "stopped after 5 redirects")
  else None.

(** The redirect loop of [http.Client.Do]: each request is appended to
    [reqs] before it is sent; when the answer is a redirect, the policy is
    called with the new request and the requests made so far (oldest
    first), and its error ends the call. [server] maps the number of
    requests already answered to the next answer: [Some loc] is a redirect
    to [loc], [None] a final response. The result is the list of requests
    sent and the error of the policy, if it stopped the call; [None] when
    [fuel] requests did not reach the end of the chain. *)
Fixpoint client_follow (policy : string → list string → option error)
    (server : nat → option string) (fuel : nat) (reqs : list string) (req : string)
    : option (list string * option error) :=
  match fuel with
  | O => None
  | S fuel' =>
      let reqs := reqs ++ [req] in
      match server (length reqs - 1)%nat with
      | None => Some (reqs, None)
      | Some loc =>
          match policy loc reqs with
          | Some err => Some (reqs, Some err)
          | None => client_follow policy server fuel' reqs loc
          end
      end
  end.

(** *** performCheck *)

Definition maxAttempts : nat := 3.

Definition set_StatusCode (c : Z) (r : CheckResult) : CheckResult :=
  mkCheckResult (CheckedAt r) (Some c) (LatencyMs r) (Error r).
Definition set_Error (e : string) (r : CheckResult) : CheckResult :=
  mkCheckResult (CheckedAt r) (StatusCode r) (LatencyMs r) (Some e).

(** The code after the loop. *)
Definition after_loop (result : CheckResult) (lastErr : option error) : CheckResult :=
  match lastErr with
  | Some err => set_Error (msg err) result
  | None => result
  end.

Definition emit {A} (e : event) (r : A * list event) : A * list event :=
  (r.1, e :: r.2).

(** The [for] loop from iteration [attempt] on; [remaining] is
    [maxAttempts - attempt]. Every exit of the Go loop is marked. *)
Fixpoint attempts (w : World) (targetURL : string) (remaining attempt : nat)
    (backoff : Z) (result : CheckResult) (lastErr : option error)
    : CheckResult * list event :=
  match remaining with
  | O => (after_loop result lastErr, [])             (* attempt < maxAttempts fails *)
  | S remaining' =>
      let body (backoff : Z) : CheckResult * list event :=
        match new_request w targetURL with
        | Some err =>
            (* continue *)
            emit (EvNewRequest attempt (Some err))
              (attempts w targetURL remaining' (S attempt) backoff result (Some err))
        | None =>
            emit (EvNewRequest attempt None)
              (emit (EvDo attempt (client_do w attempt))
                 match client_do w attempt with
                 | Failed err =>
                     (* Retry on network errors *)
                     if isNetworkError err
                     then attempts w targetURL remaining' (S attempt) backoff
                            result (Some err)                          (* continue *)
                     else (after_loop result (Some err), [])           (* break *)
                 | Response status =>
                     let result := set_StatusCode status result in
                     (* Success or 4xx - don't retry *)
                     if decide (status < 500) then (result, [])        (* return *)
                     else
                       (* 5xx - retry if we have attempts left *)
                       let lastErr :=
                         Some (mkError OtherError
                                 ("server error: " +:+ gostr.itoa status)) in
                       if decide (attempt = (maxAttempts - 1)%nat)
                       then (after_loop result lastErr, [])            (* break *)
                       else attempts w targetURL remaining' (S attempt) backoff
                              result lastErr
                 end)
        end in
      if decide (0 < attempt)%nat then
        (* Apply exponential backoff *)
        match backoff_wait w attempt with
        | Cancelled =>
            (set_Error "context cancelled" result,
             [EvBackoff attempt backoff Cancelled])                    (* return *)
        | Proceeded =>
            emit (EvBackoff attempt backoff Proceeded) (body (backoff * 2))
        end
      else body backoff
  end.

(** [performCheck] with the trace of its steps. *)
Definition performCheck_trace (w : World) (targetURL : string)
    : CheckResult * list event :=
  attempts w targetURL maxAttempts 0 200 (mkCheckResult gotime.zero None 0 None) None.

Definition performCheck (w : World) (targetURL : string) : CheckResult :=
  (performCheck_trace w targetURL).1.

(** Number of calls of [client.Do] in a trace: the requests the probe
    issues. The library may answer one of them with several requests on the
    wire, when it follows redirects ([client_follow] above counts those). *)
Definition is_do (e : event) : bool :=
  match e with EvDo _ _ => true | _ => false end.
Definition requests (tr : list event) : nat := length (filter (λ e, is_do e) tr).


(** *** checkTarget *)

Record Checker := mkChecker {
  store : storage.Storage;
  hostSems : gset string;      (* the hosts that have a gate *)
}.

(** [getHostSemaphore]: the gate of the host, created on first use. *)
Definition getHostSemaphore (c : Checker) (host : string) : Checker :=
  if decide (host ∈ hostSems c) then c
  else mkChecker (store c) ({[host]} ∪ hostSems c).

Definition checkTarget {lib : neturl.Lib} (w : World) (c : Checker) (target : Target)
    : Checker :=
  match neturl.Parse (URL target) with
  | inr _ => c                                        (* logged, return *)
  | inl parsed =>
      let host := neturl.Host parsed in
      (* Get or create per-host semaphore *)
      let c := getHostSemaphore c host in
      (* Acquire per-host lock *)
      match gate_wait w with
      | Cancelled => c                                (* return *)
      | Proceeded =>
          let start := clock_start w in
          let result := performCheck w (URL target) in
          let result :=
            mkCheckResult start (StatusCode result) (elapsed_ms w) (Error result) in
          mkChecker (storage.SaveCheckResult (store c) (ID target) result) (hostSems c)
      end
  end.

(** The signal was seen at a point where the probe waits: at the gate, in a
    backoff sleep, or by the HTTP request. *)
Definition cancel_event (targetURL : string) (e : event) : bool :=
  match e with
  | EvBackoff _ _ Cancelled => true
  | EvDo _ (Failed err) => bool_decide (err = context_canceled targetURL)
  | _ => false
  end.

End checker.

(** ** Package api: the handlers

    A handler maps the decoded request and the store to the store and the
    response. What the library decodes is an argument: the JSON body as the
    decoded request ([None] when [Decode] fails), a header or a query
    parameter as its text (empty when absent). A response is the status code
    with the value handed to the JSON encoder, or with the message of
    [writeError]. *)

Module api.

Inductive response (A : Type) :=
| Json (status : Z) (body : A)
| Failure (status : Z) (message : string).
Arguments Json {A} status body.
Arguments Failure {A} status message.

Definition status_of {A} (r : response A) : Z :=
  match r with
  | Json status _ => status
  | Failure status _ => status
  end.

Section handlers.

Context {lib : neturl.Lib}.

(** [strconv.Atoi]: the number, or [None] for its error. *)
Variable Atoi : string → option Z.

(** [time.Parse(time.RFC3339, s)]: the time, in the zone its text names, or
    [None] for its error. *)
Variable parseRFC3339 : string → option gotime.Time.

(** The text the database driver stores for a [time.Time]. *)
Variable timestamp_text : gotime.Time → string.

Variable formatRFC3339Nano : Z → string.
Variable compare_created_at : Z → string → comparison.

(** [Handler.CreateTarget]; [unix_nano] and [now] are the readings of the
    clock that [store.CreateTarget] makes. *)
Definition CreateTarget (store : storage.Storage) (unix_nano now : Z)
    (body : option models.CreateTargetRequest) (idempotency_key_header : string)
    : storage.Storage * response models.CreateTargetResponse :=
  match body with
  | None => (store, Failure 400 "invalid JSON")
  | Some req =>
      if decide (models.RequestURL req = "") then (store, Failure 400 "url is required")
      else
        (* Validate and canonicalize URL *)
        match storage.CanonicalizeURL (models.RequestURL req) with
        | storage.Err err => (store, Failure 400 ("invalid URL: " +:+ err))
        | storage.Ok canonicalURL =>
            (* Parse URL to validate it's HTTP/HTTPS *)
            match neturl.Parse canonicalURL with
            | inr _ => (store, Failure 400 "invalid URL")
            | inl parsed =>
                if bool_decide (neturl.Scheme parsed ≠ "http")
                   && bool_decide (neturl.Scheme parsed ≠ "https")
                then (store, Failure 400 "URL must use HTTP or HTTPS scheme")
                else
                  (* Handle idempotency key *)
                  let idempotencyKey :=
                    if decide (idempotency_key_header = "") then None
                    else Some idempotency_key_header in
                  match storage.CreateTarget store unix_nano now (models.RequestURL req)
                          canonicalURL idempotencyKey with
                  | (_, storage.Err _) => (store, Failure 500 "internal error")
                  | (store', storage.Ok (target, isNew)) =>
                      (store',
                       Json (if isNew : bool then 201 else 200)
                         (models.mkCreateTargetResponse (models.ID target)
                            (models.URL target) (models.CreatedAt target)))
                  end
            end
        end
  end.

(** The [limit] parameter as both list handlers read it: [default] unless
    the text is a number in [1, maximum]. *)
Definition read_limit (l : string) (default maximum : Z) : Z :=
  if decide (l = "") then default
  else match Atoi l with
       | Some parsed => if decide (0 < parsed ∧ parsed ≤ maximum) then parsed else default
       | None => default
       end.

(** [Handler.ListTargets]: [None] when the call panics. *)
Definition ListTargets (store : storage.Storage) (host limit page_token : string)
    : option (response models.TargetList) :=
  let hostPtr := if decide (host = "") then None else Some host in
  let limit := read_limit limit 10 100 in
  targets ← storage.ListTargets formatRFC3339Nano compare_created_at store hostPtr limit
              page_token;
  Some (Json 200 targets).

(** [Handler.GetCheckResults]. *)
Definition GetCheckResults (store : storage.Storage) (target_id since limit : string)
    : response models.CheckResultList :=
  if decide (target_id = "") then Failure 400 "target_id is required"
  else
    let run (since : option gotime.Time) :=
      let limit := read_limit limit 50 1000 in
      Json 200 (storage.GetCheckResults timestamp_text store target_id since limit) in
    if decide (since = "") then run None
    else match parseRFC3339 since with
         | Some parsed => run (Some parsed)
         | None => Failure 400 "invalid since parameter, expected RFC3339 format"
         end.

End handlers.

End api.

(** ** Concrete inputs

    The worlds, servers and stores on which the program is run below. *)

Module scenario.

Import checker.

(** A world in which nothing is cancelled, the request is built, and the
    server answers every request with [status]. *)
Definition always (status : Z) : World :=
  mkWorld Proceeded (λ _, Proceeded) (λ _, None) (λ _, Response status) (gotime.utc 1000) 650.

(** A server that answers 500, 500, 200. *)
Definition recovers : World :=
  mkWorld Proceeded (λ _, Proceeded) (λ _, None)
    (λ i, if decide (i < 2)%nat then Response 500 else Response 200) (gotime.utc 1000) 650.


(** The signal fires while the probe waits for its gate. *)
Definition cancel_at_gate : World :=
  mkWorld Cancelled (λ _, Proceeded) (λ _, None) (λ _, Response 200) (gotime.utc 1000) 0.

(** The server answers 503, the signal fires during the first backoff. *)
Definition cancel_in_backoff : World :=
  mkWorld Proceeded (λ _, Cancelled) (λ _, None) (λ _, Response 503) (gotime.utc 1000) 120.

(** The signal fires while the first request is executed. *)
Definition cancel_in_request : World :=
  mkWorld Proceeded (λ _, Proceeded) (λ _, None) (λ _, Failed (context_canceled "https://example.com/")) (gotime.utc 1000) 40.

(** A server that redirects its first [n] requests and then answers. *)
Definition redirects (n : nat) (answered : nat) : option string :=
  if decide (answered < n)%nat then Some ("/hop" +:+ pretty (S answered)) else None.

Definition target1 : models.Target := models.mkTarget "t_1" "https://example.com/" 1.

(** Registration as the API handler does it: canonicalize, then create.
    [clock] is the reading of the clock, in nanoseconds. *)
Definition register (s : storage.Storage) (clock : Z) (rawURL : string)
    (idempotencyKey : option string) : storage.Storage :=
  match storage.CanonicalizeURL (lib := urlmodel.lib) rawURL with
  | storage.Ok canonicalURL =>
      (storage.CreateTarget s clock clock rawURL canonicalURL idempotencyKey).1
  | storage.Err _ => s
  end.

(** The three registrations of the listing scenarios, a millisecond apart. *)
Definition three_targets : storage.Storage :=
  register
    (register
       (register storage.empty 1000000 "https://example.com" None)
       2000000 "https://test.com" None)
    3000000 "https://example.org" None.

(** The store after [https://a.com] is registered with the key [k1], and
    two calls made after it. *)
Definition a_com : models.Target := models.mkTarget "t_1000" "https://a.com" 1000.
Definition after_a_com : storage.Storage :=
  (storage.CreateTarget storage.empty 1000 1000 "https://a.com" "https://a.com"
     (Some "k1")).1.
Definition later_calls : list storage.call :=
  [storage.CallCreateTarget 1500 1500 "https://c.com/" "https://c.com/" (Some "k2");
   storage.CallSaveCheckResult "t_1000" (models.mkCheckResult (gotime.utc 1600) (Some 200) 12 None)].

(** Calls of every kind made after it: a registration, a saved result, and
    the maintenance call with a cutoff later than every recorded key. *)
Definition later_ops : list storage.op :=
  [storage.OpCreateTarget 1500 1500 "https://c.com/" "https://c.com/" (Some "k2");
   storage.OpSaveCheckResult "t_1000"
     (models.mkCheckResult (gotime.utc 1600) (Some 200) 12 None);
   storage.OpCleanupOldIdempotencyKeys (gotime.utc 5000)].

(** A fourth registration on the host of the first, with a path. *)
Definition four_targets : storage.Storage :=
  register three_targets 4000000 "https://Example.com/docs" None.

Definition example_com_docs : models.Target :=
  models.mkTarget "t_4000000" "https://Example.com/docs" 4000000.

Definition example_com : models.Target :=
  models.mkTarget "t_1000000" "https://example.com" 1000000.
Definition test_com : models.Target :=
  models.mkTarget "t_2000000" "https://test.com" 2000000.
Definition example_org : models.Target :=
  models.mkTarget "t_3000000" "https://example.org" 3000000.

Definition checker0 : Checker := mkChecker storage.empty ∅.


(** A store with a key recorded at 09:00 UTC of January 1, 1970, and a
    result checked at the same time. *)
Definition eight : Z := 8 * 3600 * 1000000000.
Definition nine : Z := 9 * 3600 * 1000000000.
Definition ten : Z := 10 * 3600 * 1000000000.
Definition at_nine : storage.Storage :=
  storage.SaveCheckResult
    (storage.CreateTarget storage.empty nine nine "https://a.com" "https://a.com"
       (Some "k1")).1
    (storage.generateID "t_" nine)
    (models.mkCheckResult (gotime.utc nine) (Some 200) 12 None).


End scenario.

(** ** Further concrete inputs *)

Module fixtures.

Import checker.

(** The connection is refused at every attempt. [client.Do] returns every
    error as a [*url.Error] that wraps the cause, here the [*net.OpError] of
    the dial, and prints the method, the quoted URL and the cause. *)
Definition refused : error :=
  mkError URLError
    ("Get " +:+ gostr.quote "http://127.0.0.1:1/"
     +:+ ": dial tcp 127.0.0.1:1: connect: connection refused").
Definition unreachable : World :=
  mkWorld Proceeded (λ _, Proceeded) (λ _, None) (λ _, Failed refused) (gotime.utc 1000) 700.

(** The server answers 503, then the connection is refused. *)
Definition refused_after_503 : World :=
  mkWorld Proceeded (λ _, Proceeded) (λ _, None)
    (λ i, if decide (i = 0)%nat then Response 503 else Failed refused) (gotime.utc 1000) 900.

End fixtures.

(** * Properties *)

(** ** Strings *)

Section string_facts.

Lemma length_app (a b : string) :
  String.length (a +:+ b) = (String.length a + String.length b)%nat.
Proof. induction a as [|c a IH]; simpl; [done|]. by rewrite IH. Qed.

Lemma substring_whole (s : string) : String.substring 0 (String.length s) s = s.
Proof. induction s as [|c s IH]; simpl; [done|]. by rewrite IH. Qed.

Lemma substring_skip (a b : string) (m : nat) :
  String.substring (String.length a) m (a +:+ b) = String.substring 0 m b.
Proof. induction a as [|c a IH]; simpl; [done|]. apply IH. Qed.

Lemma substring_head (a b : string) :
  String.substring 0 (String.length a) (a +:+ b) = a.
Proof.
  induction a as [|c a IH]; simpl.
  - by destruct b.
  - by rewrite IH.
Qed.

Lemma HasSuffix_app (a suffix : string) : gostr.HasSuffix (a +:+ suffix) suffix = true.
Proof.
  unfold gostr.HasSuffix. rewrite length_app.
  replace (String.length a + String.length suffix - String.length suffix)%nat
    with (String.length a) by lia.
  rewrite substring_skip, substring_whole.
  rewrite !bool_decide_eq_true_2; [done..|lia].
Qed.

Lemma TrimSuffix_app (a suffix : string) : gostr.TrimSuffix (a +:+ suffix) suffix = a.
Proof.
  unfold gostr.TrimSuffix. rewrite HasSuffix_app, length_app.
  replace (String.length a + String.length suffix - String.length suffix)%nat
    with (String.length a) by lia.
  apply substring_head.
Qed.

Lemma count_byte_app (c : ascii) (a b : string) :
  gostr.count_byte c (a +:+ b) = (gostr.count_byte c a + gostr.count_byte c b)%nat.
Proof. induction a as [|d a IH]; simpl; [done|]. rewrite IH. lia. Qed.

(** [Split] returns one piece more than the separator has occurrences. *)
Lemma split_go_length (sep : ascii) (s cur : string) :
  length (gostr.split_go sep cur s) = S (gostr.count_byte sep s).
Proof.
  revert cur. induction s as [|c s IH]; intros cur; simpl; [done|].
  destruct (decide (c = sep)); simpl; by rewrite IH.
Qed.

Lemma Split1_length (sep : ascii) (s : string) :
  length (gostr.Split1 s sep) = S (gostr.count_byte sep s).
Proof. apply split_go_length. Qed.

End string_facts.

(** ** Package main *)

(** The first test of [initDB] compares nine bytes with a text of ten: it
    never holds. *)
Lemma initDB_first_test_fails (s p9 : string) :
  gostr.slice_to s 9 = Some p9 → p9 ≠ "sqlite3://".
Proof.
  unfold gostr.slice_to. case_decide; [|done]. intros [= <-] Heq.
  apply (f_equal String.length) in Heq.
  do 9 (destruct s as [|? s]; [simpl in *; lia|]).
  by destruct s.
Qed.

(** What [initDB] does with [sqlite3://path]: it keeps the whole text as the
    data source name, and panics on the third test when the path has fewer
    than three bytes. *)
Lemma initDB_sqlite3 (path : string) :
  main.initDB ("sqlite3://" +:+ path)
  = if decide (String.length path < 3)%nat then None
    else Some ("sqlite3", "sqlite3://" +:+ path).
Proof.
  destruct path as [|c1 [|c2 [|c3 path]]]; by vm_compute.
Qed.

(** C9 (the code departs from the claim). For no [path] does
    [initDB "sqlite3://path"] open the sqlite3 driver on [path]: the prefix is
    never stripped. With DATABASE_URL unset, the data source name handed to
    [sql.Open] is the whole default [sqlite3://linkwatch.db], not
    [linkwatch.db]. *)
Theorem initDB_sqlite3_prefix_not_stripped :
  (∀ path : string, main.initDB ("sqlite3://" +:+ path) ≠ Some ("sqlite3", path))
  ∧ main.initDB "" = Some ("sqlite3", "sqlite3://linkwatch.db")
  ∧ main.initDB "sqlite3://data.db" = Some ("sqlite3", "sqlite3://data.db").
Proof.
  split; [|split; by vm_compute].
  intros path. rewrite initDB_sqlite3. case_decide; [done|].
  intros [= Heq]. apply (f_equal String.length) in Heq.
  rewrite length_app in Heq. simpl in Heq. lia.
Qed.

(** Every non-empty DATABASE_URL shorter than nine bytes makes [initDB] panic. *)
Lemma initDB_short_panics (databaseURL : string) :
  databaseURL ≠ "" → (String.length databaseURL < 9)%nat →
  main.initDB databaseURL = None.
Proof.
  intros Hne Hlen. unfold main.initDB. rewrite decide_False by done.
  unfold gostr.slice_to.
  destruct (decide (9 ≤ String.length databaseURL)%nat); [lia|done].
Qed.

(** C10 (the code departs from the claim). [initDB] is not total: on the
    non-empty DATABASE_URL [test.db] (seven bytes) the slice
    [databaseURL[:9]] is out of range and [initDB] panics; so does
    [databaseURL[:13]] on [sqlite3://a]. *)
Theorem initDB_panics_on_short_url :
  main.initDB "test.db" = None
  ∧ main.initDB ":memory:" = None
  ∧ main.initDB "sqlite3://a" = None.
Proof. by vm_compute. Qed.

(** ** Package checker: the redirect policy *)

(** The policy lets a redirect through exactly when fewer than five requests
    have been made. *)
Lemma CheckRedirect_spec (req : string) (via : list string) :
  checker.CheckRedirect req via = None ↔ (length via < 5)%nat.
Proof.
  unfold checker.CheckRedirect. case_decide; split; intros; try done; lia.
Qed.

(** C7 (the code departs from the claim). The policy rejects the redirect
    that follows the fifth request, that is the 5th redirect, not the 6th:
    against a server that redirects five times and then answers, the client
    sends five requests (the original and four redirects) and stops with the
    policy's error. Four redirects are still followed to the final answer. *)
Theorem CheckRedirect_rejects_fifth_redirect :
  checker.CheckRedirect "/hop5" ["/"; "/hop1"; "/hop2"; "/hop3"; "/hop4"]
    = Some (checker.mkError checker.OtherError "stopped after 5 redirects")
  ∧ checker.client_follow checker.CheckRedirect (scenario.redirects 5) 10 [] "/"
    = Some (["/"; "/hop1"; "/hop2"; "/hop3"; "/hop4"],
            Some (checker.mkError checker.OtherError "stopped after 5 redirects"))
  ∧ checker.client_follow checker.CheckRedirect (scenario.redirects 4) 10 [] "/"
    = Some (["/"; "/hop1"; "/hop2"; "/hop3"; "/hop4"], None).
Proof. by vm_compute. Qed.

(** ** Package checker: the retry loop *)

Section performCheck.

Import checker models.

Variable w : World.
Variable targetURL : string.

Lemma last_cons_in {A} (x e : A) (l : list A) : In x l → last (e :: l) = last l.
Proof. by destruct l. Qed.

(** No exit of the loop touches the error of the result except the two
    that set it; a response below 500 returns the result as it stands. *)
Lemma attempts_terminal_response remaining attempt backoff result lastErr i c :
  In (EvDo i (Response c)) (attempts w targetURL remaining attempt backoff result lastErr).2 →
  c < 500 →
  let out := attempts w targetURL remaining attempt backoff result lastErr in
  last out.2 = Some (EvDo i (Response c))
  ∧ StatusCode out.1 = Some c
  ∧ Error out.1 = Error result.
Proof.
  revert attempt backoff result lastErr.
  induction remaining as [|n IH]; intros attempt backoff result lastErr Hin Hc;
    simpl in *; [done|].
  repeat (case_match; simpl in * );
    repeat match goal with
      | H : _ ∨ _ |- _ => destruct H as [H|H]; [simplify_eq; try done; try lia|]
      | H : False |- _ => destruct H
      end;
    destruct (IH _ _ _ _ Hin Hc) as (Hl & Hs & He);
    (split_and!; [|exact Hs|exact He]);
    rewrite <- Hl;
    repeat (rewrite (last_cons_in (EvDo i (Response c))) by (simpl; auto));
    done.
Qed.

End performCheck.

(** A cancellation seen by the loop ends it at once, with the error set:
    ["context cancelled"] after a cancelled backoff, the text of the
    request's error after a cancelled request. *)
Lemma attempts_cancelled (w : checker.World) (targetURL : string)
    remaining attempt backoff result lastErr :
  existsb (checker.cancel_event targetURL)
    (checker.attempts w targetURL remaining attempt backoff result lastErr).2 = true →
  let out := checker.attempts w targetURL remaining attempt backoff result lastErr in
  (∃ i d, last out.2 = Some (checker.EvBackoff i d checker.Cancelled)
          ∧ models.Error out.1 = Some "context cancelled")
  ∨ (∃ i, last out.2
          = Some (checker.EvDo i (checker.Failed (checker.context_canceled targetURL)))
          ∧ models.Error out.1 = Some (checker.msg (checker.context_canceled targetURL))).
Proof.
  assert (Hlast : ∀ (e : checker.event) l,
             existsb (checker.cancel_event targetURL) l = true → last (e :: l) = last l).
  { intros e [|??]; [discriminate|done]. }
  revert attempt backoff result lastErr.
  induction remaining as [|n IH]; intros attempt backoff result lastErr Hex;
    simpl in *; [done|].
  repeat (case_match; simpl in * ); try discriminate;
    try (rewrite Hlast by done; by apply IH);
    try (left; by eauto).
  all: try (apply orb_true_iff in Hex as [Hex|Hex];
            [apply bool_decide_eq_true in Hex; subst; try discriminate
            |rewrite ?Hlast by done; try by apply IH]).
  all: try (right; by eauto).
  all: try done.
Qed.

(** What a run of [performCheck] that builds no request looks like: three
    iterations, two backoff sleeps, no request sent. *)
Lemma performCheck_request_construction_fails (w : checker.World) (targetURL : string)
    (err : checker.error) :
  checker.new_request w targetURL = Some err →
  (∀ i, checker.backoff_wait w i = checker.Proceeded) →
  checker.performCheck_trace w targetURL
  = (models.mkCheckResult gotime.zero None 0 (Some (checker.msg err)),
     [checker.EvNewRequest 0 (Some err);
      checker.EvBackoff 1 200 checker.Proceeded; checker.EvNewRequest 1 (Some err);
      checker.EvBackoff 2 400 checker.Proceeded; checker.EvNewRequest 2 (Some err)]).
Proof.
  intros Hreq Hwait. unfold checker.performCheck_trace. simpl.
  by rewrite !Hreq, !Hwait.
Qed.

(** C4. Against a server that answers 500 to every request, [performCheck]
    sends exactly 3 requests and returns status 500 with an error; against a
    server that answers 404 it sends exactly 1 request and returns status 404
    without an error; and whenever a response with a status below 500 arrives,
    at any attempt, it is the last step of the probe and the result carries
    that status and no error. *)
Theorem performCheck_retry_policy :
  (∀ (w : checker.World) (targetURL : string),
     checker.new_request w targetURL = None →
     (∀ i, checker.backoff_wait w i = checker.Proceeded) →
     (∀ i, checker.client_do w i = checker.Response 500) →
     checker.requests (checker.performCheck_trace w targetURL).2 = 3%nat
     ∧ models.StatusCode (checker.performCheck w targetURL) = Some 500
     ∧ models.Error (checker.performCheck w targetURL) = Some "server error: 500")
  ∧ (∀ (w : checker.World) (targetURL : string),
     checker.new_request w targetURL = None →
     checker.client_do w 0 = checker.Response 404 →
     checker.requests (checker.performCheck_trace w targetURL).2 = 1%nat
     ∧ models.StatusCode (checker.performCheck w targetURL) = Some 404
     ∧ models.Error (checker.performCheck w targetURL) = None)
  ∧ (∀ (w : checker.World) (targetURL : string) (i : nat) (c : Z),
     In (checker.EvDo i (checker.Response c)) (checker.performCheck_trace w targetURL).2 →
     c < 500 →
     last (checker.performCheck_trace w targetURL).2
       = Some (checker.EvDo i (checker.Response c))
     ∧ models.StatusCode (checker.performCheck w targetURL) = Some c
     ∧ models.Error (checker.performCheck w targetURL) = None).
Proof.
  split; [|split].
  - intros w targetURL Hreq Hwait Hdo.
    unfold checker.performCheck, checker.performCheck_trace. simpl.
    rewrite !Hreq, !Hdo, !Hwait. by vm_compute.
  - intros w targetURL Hreq Hdo.
    unfold checker.performCheck, checker.performCheck_trace. simpl.
    rewrite !Hreq, !Hdo. by vm_compute.
  - intros w targetURL i c Hin Hc.
    apply (attempts_terminal_response w targetURL _ _ _ _ _ i c Hin Hc).
Qed.

Lemma performCheck_retry_policy_witness :
  (checker.requests (checker.performCheck_trace (scenario.always 500) "http://a.test").2 = 3%nat
   ∧ models.StatusCode (checker.performCheck (scenario.always 500) "http://a.test") = Some 500
   ∧ models.Error (checker.performCheck (scenario.always 500) "http://a.test")
     = Some "server error: 500")
  ∧ (checker.requests (checker.performCheck_trace (scenario.always 404) "http://a.test").2 = 1%nat
     ∧ models.StatusCode (checker.performCheck (scenario.always 404) "http://a.test") = Some 404
     ∧ models.Error (checker.performCheck (scenario.always 404) "http://a.test") = None)
  ∧ (last (checker.performCheck_trace scenario.recovers "http://a.test").2
       = Some (checker.EvDo 2 (checker.Response 200))
     ∧ models.StatusCode (checker.performCheck scenario.recovers "http://a.test") = Some 200
     ∧ models.Error (checker.performCheck scenario.recovers "http://a.test") = None).
Proof.
  destruct performCheck_retry_policy as (H500 & H404 & Hlow).
  split; [|split].
  - apply (H500 (scenario.always 500) "http://a.test"); reflexivity.
  - apply (H404 (scenario.always 404) "http://a.test"); reflexivity.
  - apply (Hlow scenario.recovers "http://a.test" 2%nat 200).
    + vm_compute. tauto.
    + lia.
Defined.




(** ** Package checker: cancellation *)

(** C3, as stated, fails: the signal fires during the first backoff sleep
    (after a 503), or while the first request is executed, and in both runs
    [checkTarget] writes a CheckResult for the probe. *)
Lemma cancelled_probe_writes_result :
  (existsb (checker.cancel_event "https://example.com/")
     (checker.performCheck_trace scenario.cancel_in_backoff "https://example.com/").2 = true
   ∧ storage.check_results
       (checker.store (checker.checkTarget (lib := urlmodel.lib)
                         scenario.cancel_in_backoff scenario.checker0 scenario.target1))
     = [("t_1", models.mkCheckResult (gotime.utc 1000) (Some 503) 120 (Some "context cancelled"))])
  ∧ (existsb (checker.cancel_event "https://example.com/")
       (checker.performCheck_trace scenario.cancel_in_request "https://example.com/").2 = true
     ∧ storage.check_results
         (checker.store (checker.checkTarget (lib := urlmodel.lib)
                           scenario.cancel_in_request scenario.checker0 scenario.target1))
       = [("t_1", models.mkCheckResult (gotime.utc 1000) None 40
                    (Some (checker.msg (checker.context_canceled "https://example.com/"))))])
  ∧ storage.check_results (checker.store scenario.checker0) = [].
Proof. by vm_compute. Qed.

(** C3, amended. When the signal fires while the probe waits for its
    per-host gate, the probe is abandoned and the store is left as it was.
    When it fires during a backoff sleep or while the HTTP request is
    executed, the probe ends at that step and [checkTarget] appends a
    CheckResult for it whose error is set: ["context cancelled"] after a
    cancelled sleep, the error of the request after a cancelled request. *)
Theorem checkTarget_cancellation :
  (∀ (lib : neturl.Lib) (w : checker.World) (c : checker.Checker) (target : models.Target),
     checker.gate_wait w = checker.Cancelled →
     checker.store (checker.checkTarget w c target) = checker.store c)
  ∧ (∀ (lib : neturl.Lib) (w : checker.World) (c : checker.Checker) (target : models.Target)
       (parsed : neturl.URL),
     neturl.Parse (models.URL target) = inl parsed →
     checker.gate_wait w = checker.Proceeded →
     existsb (checker.cancel_event (models.URL target))
       (checker.performCheck_trace w (models.URL target)).2 = true →
     ∃ e : string,
       storage.check_results (checker.store (checker.checkTarget w c target))
       = storage.check_results (checker.store c)
         ++ [(models.ID target,
              models.mkCheckResult (checker.clock_start w)
                (models.StatusCode (checker.performCheck w (models.URL target)))
                (checker.elapsed_ms w) (Some e))]
       ∧ ((∃ i d, last (checker.performCheck_trace w (models.URL target)).2
                  = Some (checker.EvBackoff i d checker.Cancelled)
                  ∧ e = "context cancelled")
          ∨ (∃ i, last (checker.performCheck_trace w (models.URL target)).2
                  = Some (checker.EvDo i
                            (checker.Failed (checker.context_canceled (models.URL target))))
                  ∧ e = checker.msg (checker.context_canceled (models.URL target))))).
Proof.
  split.
  - intros lib w c target Hgate. unfold checker.checkTarget.
    destruct (neturl.Parse _); [|done]. rewrite Hgate.
    unfold checker.getHostSemaphore. by case_decide.
  - intros lib w c target parsed Hparse Hgate Hex.
    unfold checker.checkTarget. rewrite Hparse, Hgate.
    assert (Hstore : checker.store (checker.getHostSemaphore c (neturl.Host parsed))
                     = checker.store c).
    { unfold checker.getHostSemaphore. by case_decide. }
    simpl. rewrite Hstore.
    destruct (attempts_cancelled _ _ _ _ _ _ _ Hex) as [(i & d & Hl & He)|(i & Hl & He)].
    + exists "context cancelled". split.
      * unfold checker.performCheck, checker.performCheck_trace. by rewrite He.
      * left. by exists i, d.
    + exists (checker.msg (checker.context_canceled (models.URL target))). split.
      * unfold checker.performCheck, checker.performCheck_trace. by rewrite He.
      * right. by exists i.
Qed.

Lemma checkTarget_cancellation_witness :
  checker.store
    (checker.checkTarget (lib := urlmodel.lib) scenario.cancel_at_gate scenario.checker0
       scenario.target1)
  = checker.store scenario.checker0
  ∧ ∃ e : string,
      storage.check_results
        (checker.store (checker.checkTarget (lib := urlmodel.lib) scenario.cancel_in_backoff
                          scenario.checker0 scenario.target1))
      = storage.check_results (checker.store scenario.checker0)
        ++ [("t_1", models.mkCheckResult (gotime.utc 1000)
                      (models.StatusCode
                         (checker.performCheck scenario.cancel_in_backoff
                            "https://example.com/"))
                      120 (Some e))]
      ∧ ((∃ i d, last (checker.performCheck_trace scenario.cancel_in_backoff
                         "https://example.com/").2
                 = Some (checker.EvBackoff i d checker.Cancelled)
                 ∧ e = "context cancelled")
         ∨ (∃ i, last (checker.performCheck_trace scenario.cancel_in_backoff
                         "https://example.com/").2
                 = Some (checker.EvDo i
                           (checker.Failed (checker.context_canceled "https://example.com/")))
                 ∧ e = checker.msg (checker.context_canceled "https://example.com/"))).
Proof.
  destruct checkTarget_cancellation as (Hgate & Hrun).
  split.
  - apply (Hgate urlmodel.lib scenario.cancel_at_gate scenario.checker0 scenario.target1).
    reflexivity.
  - apply (Hrun urlmodel.lib scenario.cancel_in_backoff scenario.checker0 scenario.target1
             (neturl.mkURL "https" "" None "example.com" "/" "" false false "" "" ""));
      by vm_compute.
Defined.

(** ** Package storage: listing *)

Section ListTargets_facts.

Variable formatRFC3339Nano : Z → string.
Variable compare_created_at : Z → string → comparison.

(** A token built from an identifier of [generateID "t_"] holds two
    underscores, so [Split] cuts it into three pieces or more and the
    cursor condition is left out of the query. *)
Lemma where_clause_generated_token (host : option string) (timestamp : string)
    (unix_nano : Z) (r : storage.target_row) :
  storage.where_clause compare_created_at host
    (timestamp +:+ "_" +:+ storage.generateID "t_" unix_nano) r
  = storage.where_clause compare_created_at host "" r.
Proof.
  unfold storage.where_clause. f_equal.
  set (tok := timestamp +:+ "_" +:+ storage.generateID "t_" unix_nano).
  assert (Hn : (3 ≤ length (gostr.Split1 tok "_"%char))%nat).
  { rewrite Split1_length. unfold tok, storage.generateID.
    rewrite !count_byte_app. simpl. lia. }
  destruct (decide (tok = "")) as [Heq|_].
  { rewrite Heq in Hn. simpl in Hn. lia. }
  destruct (gostr.Split1 tok "_"%char) as [|a [|b [|c l]]]; simpl in Hn; try lia.
  done.
Qed.

(** Following such a token lists the first page again. *)
Lemma ListTargets_generated_token (s : storage.Storage) (host : option string)
    (limit : Z) (timestamp : string) (unix_nano : Z) :
  storage.ListTargets formatRFC3339Nano compare_created_at s host limit
    (timestamp +:+ "_" +:+ storage.generateID "t_" unix_nano)
  = storage.ListTargets formatRFC3339Nano compare_created_at s host limit "".
Proof.
  unfold storage.ListTargets.
  rewrite (list_filter_iff _
             (λ r, storage.where_clause compare_created_at host "" r)); [done|].
  intros r. by rewrite where_clause_generated_token.
Qed.

End ListTargets_facts.

(** C1 (the code departs from the claim). Three targets registered through
    [CreateTarget], page size 2: the first page holds the first two targets
    and a token; the call with that token returns the same two targets and
    the same token again, and the third target is never reached. This holds
    whatever the layout of the timestamp and whatever comparison the engine
    applies to it: the cursor is dropped before any comparison is made. *)
Theorem ListTargets_token_lists_first_page_again :
  ∀ (formatRFC3339Nano : Z → string) (compare_created_at : Z → string → comparison),
    let page1 :=
      models.mkTargetList [scenario.example_com; scenario.test_com]
        (formatRFC3339Nano 2000000 +:+ "_" +:+ "t_2000000") in
    storage.ListTargets formatRFC3339Nano compare_created_at
      scenario.three_targets None 2 "" = Some page1
    ∧ storage.ListTargets formatRFC3339Nano compare_created_at
        scenario.three_targets None 2 (models.NextPageToken page1) = Some page1
    ∧ storage.ListTargets formatRFC3339Nano compare_created_at
        scenario.three_targets None 10 ""
      = Some (models.mkTargetList
                [scenario.example_com; scenario.test_com; scenario.example_org] "").
Proof.
  intros fmt cmp page1. split; [by vm_compute|split; [|by vm_compute]].
  unfold page1. cbn [models.NextPageToken].
  change "t_2000000" with (storage.generateID "t_" 2000000).
  rewrite ListTargets_generated_token. by vm_compute.
Qed.

(** C2 (the code departs from the claim). The pattern of the host filter
    asks for a [/] after the host: the target registered as
    [https://example.com], whose canonical URL ends with the host, is not
    returned for the host filter [example.com], although it is stored and its
    host is [example.com]. A target of the same host whose canonical URL has
    a path is returned, whatever the case of the filter. *)
Theorem ListTargets_host_filter_misses_bare_host :
  ∀ (formatRFC3339Nano : Z → string) (compare_created_at : Z → string → comparison),
    storage.ListTargets formatRFC3339Nano compare_created_at
      scenario.three_targets (Some "example.com") 10 ""
    = Some (models.mkTargetList [] "")
    ∧ storage.canonical_url <$> storage.targets scenario.three_targets
      = ["https://example.com"; "https://test.com"; "https://example.org"]
    ∧ urlmodel.Parse "https://example.com"
      = inl (neturl.mkURL "https" "" None "example.com" "" "" false false "" "" "")
    ∧ storage.ListTargets formatRFC3339Nano compare_created_at
        scenario.four_targets (Some "EXAMPLE.com") 10 ""
      = Some (models.mkTargetList [scenario.example_com_docs] "").
Proof. intros fmt cmp. by vm_compute. Qed.

(** ** Package storage: idempotency keys *)

Section CreateTarget_facts.

Import storage.

Lemma select_by_id_app (s : Storage) (i : string) (r : target_row) (more : list target_row) :
  select_by_id s i = Some r →
  select_by_id (with_targets (targets s ++ more) s) i = Some r.
Proof.
  unfold select_by_id. simpl. intros ([j r'] & Hf & ->)%fmap_Some.
  by rewrite (list_find_app_l _ _ _ _ _ Hf).
Qed.

(** Under the primary key, a stored row is the one its identifier selects. *)
Lemma select_by_id_stored (s : Storage) (j : nat) (r : target_row) :
  NoDup (id <$> targets s) → targets s !! j = Some r →
  select_by_id s (id r) = Some r.
Proof.
  intros Hnd Hj. unfold select_by_id.
  assert (list_find (λ r', id r' = id r) (targets s) = Some (j, r)) as ->; [|done].
  apply list_find_Some. split_and!; [done..|].
  intros j' y Hj' Hlt Heq.
  assert (j' = j); [|lia].
  eapply (NoDup_lookup _ _ _ (id r) Hnd); rewrite list_lookup_fmap.
  - by rewrite Hj', <- Heq.
  - by rewrite Hj.
Qed.

(** A refused [insert_target] aside, the new row is selected by its id. *)
Lemma select_by_id_inserted (s s' : Storage) (r : target_row) :
  insert_target r s = Some s' → select_by_id s' (id r) = Some r.
Proof.
  unfold insert_target. case_decide as Hex; [done|]. intros [= <-].
  unfold select_by_id. simpl.
  rewrite list_find_app_r.
  - simpl. by rewrite decide_True.
  - apply list_find_None. apply Forall_forall. intros r' Hin Heq.
    apply Hex, Exists_exists. exists r'. auto.
Qed.

Lemma insert_target_keys (s s' : Storage) (r : target_row) :
  insert_target r s = Some s' →
  idempotency_keys s' = idempotency_keys s ∧ targets s' = targets s ++ [r].
Proof. unfold insert_target. case_decide; [done|]. by intros [= <-]. Qed.

Lemma select_by_canonical_inserted (s s' : Storage) (r : target_row) :
  insert_target r s = Some s' →
  select_by_canonical s' (canonical_url r) = Some r.
Proof.
  unfold insert_target. case_decide as Hex; [done|]. intros [= <-].
  unfold select_by_canonical. simpl.
  rewrite list_find_app_r.
  - simpl. by rewrite decide_True.
  - apply list_find_None. apply Forall_forall. intros r' Hin Heq.
    apply Hex, Exists_exists. exists r'. auto.
Qed.

(** The call that records [k] records it for the target registered for the
    canonical URL of the call, which is the target it returns: the row it
    has just made from the URL submitted when it reports a new target, a
    row that was there before otherwise. *)
Lemma CreateTarget_records (s s' : Storage) unix_nano now originalURL canonicalURL
    (k : string) (tgt : models.Target) (isNew : bool) :
  idempotency_keys s !! k = None →
  CreateTarget s unix_nano now originalURL canonicalURL (Some k) = (s', Ok (tgt, isNew)) →
  ∃ r, select_by_canonical s' canonicalURL = Some r
       ∧ scan r = tgt
       ∧ idempotency_keys s' !! k = Some (mkKeyRow (id r) now)
       ∧ (if isNew
          then r = mkTargetRow (generateID "t_" unix_nano) originalURL canonicalURL now
               ∧ targets s' = targets s ++ [r]
          else targets s' = targets s).
Proof.
  intros Hk. unfold CreateTarget.
  destruct (select_by_canonical s canonicalURL) as [existing|] eqn:Hcan.
  - intros [= <- <- <-]. unfold insert_or_ignore_key. rewrite Hk.
    exists existing. split_and!; try done.
    simpl. by rewrite lookup_insert_eq.
  - simpl. rewrite Hk.
    destruct (insert_target _ s) as [s1|] eqn:Hins; [|done].
    destruct (insert_target_keys _ _ _ Hins) as [Hkeys Htargets].
    pose proof (select_by_canonical_inserted _ _ _ Hins) as Hsel. simpl in Hsel.
    unfold insert_key. rewrite Hkeys, Hk. intros [= <- <- <-].
    exists (mkTargetRow (generateID "t_" unix_nano) originalURL canonicalURL now).
    split_and!; try done.
    simpl. by rewrite lookup_insert_eq.
Qed.

(** The call that records [k] binds it to the target it returns. *)
Lemma CreateTarget_binds (s s' : Storage) unix_nano now originalURL canonicalURL
    (k : string) (tgt : models.Target) (isNew : bool) :
  NoDup (id <$> targets s) →
  idempotency_keys s !! k = None →
  CreateTarget s unix_nano now originalURL canonicalURL (Some k) = (s', Ok (tgt, isNew)) →
  bound s' k tgt.
Proof.
  intros Hnd Hk. unfold CreateTarget.
  destruct (select_by_canonical s canonicalURL) as [existing|] eqn:Hcan.
  - intros [= <- <- <-]. unfold insert_or_ignore_key. rewrite Hk.
    exists (mkKeyRow (id existing) now), existing. simpl.
    split_and!; [by rewrite lookup_insert_eq| |done].
    unfold select_by_canonical in Hcan.
    apply fmap_Some in Hcan as ([j r] & (Hj & _)%list_find_Some & ->).
    by apply (select_by_id_stored s j).
  - simpl. rewrite Hk.
    destruct (insert_target _ s) as [s1|] eqn:Hins; [|done].
    destruct (insert_target_keys _ _ _ Hins) as [Hkeys Htargets].
    unfold insert_key. rewrite Hkeys, Hk. intros [= <- <- <-].
    exists (mkKeyRow (generateID "t_" unix_nano) now),
      (mkTargetRow (generateID "t_" unix_nano) originalURL canonicalURL now).
    simpl. split_and!; [by rewrite lookup_insert_eq| |done].
    apply (select_by_id_inserted _ _ _ Hins).
Qed.

(** No later call unbinds a key. *)
Lemma run_call_bound (s : Storage) (c : call) (k : string) (tgt : models.Target) :
  bound s k tgt → bound (run_call s c) k tgt.
Proof.
  intros (row & r & Hk & Hid & Hscan).
  destruct c as [unix_nano now originalURL canonicalURL key|targetID res]; simpl.
  2: { by exists row, r. }
  unfold CreateTarget.
  destruct (select_by_canonical s canonicalURL) as [existing|].
  { destruct key as [k'|]; simpl; [|by exists row, r].
    unfold insert_or_ignore_key.
    destruct (idempotency_keys s !! k') eqn:Hk'; [by exists row, r|].
    exists row, r. simpl. split_and!; [|done..].
    rewrite lookup_insert_ne; [done|congruence]. }
  destruct (key ≫= _) as [row'|] eqn:Hkey.
  { destruct (select_by_id s (target_id row')); by exists row, r. }
  destruct (insert_target _ s) as [s1|] eqn:Hins; [|by exists row, r].
  destruct (insert_target_keys _ _ _ Hins) as [Hkeys Htargets].
  assert (Hid1 : select_by_id s1 (target_id row) = Some r).
  { unfold insert_target in Hins. case_decide; [done|]. injection Hins as <-.
    by apply select_by_id_app. }
  destruct key as [k'|]; simpl in *.
  - unfold insert_key. rewrite Hkeys, Hkey. simpl.
    exists row, r. simpl. split_and!; [|done..].
    rewrite lookup_insert_ne; [done|congruence].
  - exists row, r. by rewrite Hkeys.
Qed.

Lemma run_calls_bound (calls : list call) (s : Storage) (k : string)
    (tgt : models.Target) :
  bound s k tgt → bound (run_calls s calls) k tgt.
Proof.
  revert s. induction calls as [|c calls IH]; intros s Hb; [done|].
  apply IH. by apply run_call_bound.
Qed.

(** With a bound key and an unregistered URL, [CreateTarget] returns the
    bound target and changes nothing. *)
Lemma CreateTarget_bound_key (s : Storage) unix_nano now originalURL canonicalURL
    (k : string) (tgt : models.Target) :
  bound s k tgt →
  select_by_canonical s canonicalURL = None →
  CreateTarget s unix_nano now originalURL canonicalURL (Some k) = (s, Ok (tgt, false)).
Proof.
  intros (row & r & Hk & Hid & Hscan) Hcan. unfold CreateTarget.
  rewrite Hcan. simpl. by rewrite Hk, Hid, Hscan.
Qed.

End CreateTarget_facts.

(** C6. Let a call [CreateTarget(u1, key = k)] record the key [k], which was
    not recorded before, and return a target. That call records [k] for the
    target registered for the canonical URL of [u1], which is the target it
    returns: the target it has just created from [u1] when it reports a new
    one, the target registered before otherwise. Whatever is created or
    saved afterwards, [k] stays bound to that target, and a later
    [CreateTarget(u2, key = k)] whose canonical URL is not registered returns
    that same target with [is_new = false] and leaves the store as it is: no
    target is created. The stored identifiers are distinct, as the primary
    key of the table has it. *)
Theorem CreateTarget_idempotency_key_precedence :
  ∀ (s0 s1 : storage.Storage) (unix_nano1 now1 : Z) (u1 c1 k : string)
    (tgt : models.Target) (isNew : bool) (calls : list storage.call)
    (unix_nano2 now2 : Z) (u2 c2 : string),
    NoDup (storage.id <$> storage.targets s0) →
    storage.idempotency_keys s0 !! k = None →
    storage.CreateTarget s0 unix_nano1 now1 u1 c1 (Some k) = (s1, storage.Ok (tgt, isNew)) →
    storage.select_by_canonical (storage.run_calls s1 calls) c2 = None →
    (∃ r, storage.select_by_canonical s1 c1 = Some r
          ∧ storage.scan r = tgt
          ∧ storage.idempotency_keys s1 !! k = Some (storage.mkKeyRow (storage.id r) now1)
          ∧ (if isNew
             then r = storage.mkTargetRow (storage.generateID "t_" unix_nano1) u1 c1 now1
                  ∧ storage.targets s1 = storage.targets s0 ++ [r]
             else storage.targets s1 = storage.targets s0))
    ∧ storage.bound (storage.run_calls s1 calls) k tgt
    ∧ storage.CreateTarget (storage.run_calls s1 calls) unix_nano2 now2 u2 c2 (Some k)
      = (storage.run_calls s1 calls, storage.Ok (tgt, false)).
Proof.
  intros s0 s1 n1 now1 u1 c1 k tgt isNew calls n2 now2 u2 c2 Hnd Hk Hfirst Hcan.
  assert (Hbound : storage.bound (storage.run_calls s1 calls) k tgt).
  { apply run_calls_bound. by eapply CreateTarget_binds. }
  split_and!; [by eapply CreateTarget_records|done|].
  by apply CreateTarget_bound_key.
Qed.

Lemma CreateTarget_idempotency_key_precedence_witness :
  (∃ r, storage.select_by_canonical scenario.after_a_com "https://a.com" = Some r
        ∧ storage.scan r = scenario.a_com
        ∧ storage.idempotency_keys scenario.after_a_com !! "k1"
          = Some (storage.mkKeyRow (storage.id r) 1000)
        ∧ r = storage.mkTargetRow (storage.generateID "t_" 1000) "https://a.com"
                "https://a.com" 1000
          ∧ storage.targets scenario.after_a_com = storage.targets storage.empty ++ [r])
  ∧ storage.bound (storage.run_calls scenario.after_a_com scenario.later_calls) "k1"
      scenario.a_com
  ∧ storage.CreateTarget (storage.run_calls scenario.after_a_com scenario.later_calls)
      2000 2000 "https://b.com" "https://b.com" (Some "k1")
    = (storage.run_calls scenario.after_a_com scenario.later_calls,
       storage.Ok (scenario.a_com, false)).
Proof.
  apply (CreateTarget_idempotency_key_precedence storage.empty scenario.after_a_com
           1000 1000 "https://a.com" "https://a.com" "k1" scenario.a_com true
           scenario.later_calls 2000 2000 "https://b.com" "https://b.com").
  - constructor.
  - reflexivity.
  - vm_compute. reflexivity.
  - vm_compute. reflexivity.
Defined.

(** ** Package storage: canonical URLs *)

(** C5. Whatever the library returns for a URL, provided it parses with a
    scheme, [CanonicalizeURL] prints the parsed URL with: scheme and host in
    lower case; [:80] removed from the host under [http] and [:443] under
    [https], the host otherwise kept; no fragment; the query as parsed; an
    empty path or [/] kept, one trailing [/] removed from any other path;
    user information and opaque part as parsed. Consequently, with the
    library parsing the three URLs of the specification as documented, they
    all canonicalize to the same text. *)
Theorem CanonicalizeURL_rules :
  (∀ (lib : neturl.Lib) (rawURL : string) (parsed : neturl.URL),
     neturl.Parse rawURL = inl parsed →
     neturl.Scheme parsed ≠ "" →
     let c := storage.canonical parsed in
     storage.CanonicalizeURL rawURL = storage.Ok (neturl.String c)
     ∧ neturl.Scheme c = gostr.ToLower (neturl.Scheme parsed)
     ∧ (∀ h, neturl.Scheme c = "http" →
             gostr.ToLower (neturl.Host parsed) = h +:+ ":80" → neturl.Host c = h)
     ∧ (∀ h, neturl.Scheme c = "https" →
             gostr.ToLower (neturl.Host parsed) = h +:+ ":443" → neturl.Host c = h)
     ∧ (¬ (neturl.Scheme c = "http"
           ∧ gostr.HasSuffix (gostr.ToLower (neturl.Host parsed)) ":80" = true) →
        ¬ (neturl.Scheme c = "https"
           ∧ gostr.HasSuffix (gostr.ToLower (neturl.Host parsed)) ":443" = true) →
        neturl.Host c = gostr.ToLower (neturl.Host parsed))
     ∧ neturl.Fragment c = ""
     ∧ neturl.RawQuery c = neturl.RawQuery parsed
     ∧ neturl.ForceQuery c = neturl.ForceQuery parsed
     ∧ (neturl.Path parsed = "" ∨ neturl.Path parsed = "/" →
        neturl.Path c = neturl.Path parsed)
     ∧ (∀ p, p ≠ "" → neturl.Path parsed = p +:+ "/" → neturl.Path c = p)
     ∧ (gostr.HasSuffix (neturl.Path parsed) "/" = false →
        neturl.Path c = neturl.Path parsed)
     ∧ neturl.User c = neturl.User parsed
     ∧ neturl.Opaque c = neturl.Opaque parsed)
  ∧ (∀ lib : neturl.Lib,
     neturl.Parse "https://Example.Com/path/"
       = inl (neturl.mkURL "https" "" None "Example.Com" "/path/" "" false false "" "" "") →
     neturl.Parse "HTTPS://example.com/path"
       = inl (neturl.mkURL "https" "" None "example.com" "/path" "" false false "" "" "") →
     neturl.Parse "https://example.com:443/path"
       = inl (neturl.mkURL "https" "" None "example.com:443" "/path" "" false false "" "" "") →
     let canonical_form :=
       storage.Ok (neturl.String
                     (neturl.mkURL "https" "" None "example.com" "/path" ""
                        false false "" "" "")) in
     storage.CanonicalizeURL "https://Example.Com/path/" = canonical_form
     ∧ storage.CanonicalizeURL "HTTPS://example.com/path" = canonical_form
     ∧ storage.CanonicalizeURL "https://example.com:443/path" = canonical_form).
Proof.
  split.
  - intros lib rawURL parsed Hparse Hscheme c.
    split.
    { unfold storage.CanonicalizeURL. rewrite Hparse. by rewrite decide_False. }
    clear Hparse. subst c. unfold storage.canonical.
    cbn [neturl.Scheme neturl.Host neturl.Path neturl.Opaque neturl.User
         neturl.ForceQuery neturl.RawQuery neturl.Fragment].
    set (lscheme := gostr.ToLower (neturl.Scheme parsed)).
    set (lhost := gostr.ToLower (neturl.Host parsed)).
    set (path := neturl.Path parsed).
    assert (Hroot : ∀ p, p ≠ "" → p +:+ "/" ≠ "/").
    { intros p Hp Heq. apply (f_equal String.length) in Heq.
      rewrite length_app in Heq. destruct p; simpl in Heq; [done|lia]. }
    split; [done|]. split.
    { intros h Hs Hh. rewrite decide_True by done. rewrite Hh, HasSuffix_app.
      apply TrimSuffix_app. }
    split.
    { intros h Hs Hh. rewrite decide_False by (rewrite Hs; done).
      rewrite decide_True by done. rewrite Hh, HasSuffix_app. apply TrimSuffix_app. }
    split.
    { intros Hhttp Hhttps.
      destruct (decide (lscheme = "http")); [|destruct (decide (lscheme = "https"))];
        try done.
      - destruct (gostr.HasSuffix lhost ":80"); [by destruct Hhttp|done].
      - destruct (gostr.HasSuffix lhost ":443"); [by destruct Hhttps|done]. }
    do 3 (split; [done|]).
    split.
    { intros [Hp|Hp]; rewrite Hp; reflexivity. }
    split.
    { intros p Hp Hpath. rewrite Hpath, HasSuffix_app.
      rewrite bool_decide_eq_true_2 by (by apply Hroot). apply TrimSuffix_app. }
    split; [|done].
    intros Hslash. rewrite Hslash. by rewrite andb_false_r.
  - intros lib H1 H2 H3 canonical_form. unfold storage.CanonicalizeURL.
    rewrite H1, H2, H3. by vm_compute.
Qed.

Lemma CanonicalizeURL_rules_witness :
  storage.CanonicalizeURL (lib := urlmodel.lib) "HTTP://User@Example.Com:80/a/b/?q=A%20b#top"
  = storage.Ok "http://User@example.com/a/b?q=A%20b"
  ∧ storage.CanonicalizeURL (lib := urlmodel.lib) "https://Example.Com/path/"
    = storage.Ok "https://example.com/path"
  ∧ storage.CanonicalizeURL (lib := urlmodel.lib) "HTTPS://example.com/path"
    = storage.Ok "https://example.com/path"
  ∧ storage.CanonicalizeURL (lib := urlmodel.lib) "https://example.com:443/path"
    = storage.Ok "https://example.com/path".
Proof.
  destruct CanonicalizeURL_rules as (Hrules & Hthree).
  split.
  - destruct (Hrules urlmodel.lib "HTTP://User@Example.Com:80/a/b/?q=A%20b#top"
                (neturl.mkURL "http" "" (Some (neturl.mkUserinfo "User" "" false))
                   "Example.Com:80" "/a/b/" "" false false "q=A%20b" "top" ""))
      as (Hprinted & _).
    + reflexivity.
    + discriminate.
    + rewrite Hprinted. reflexivity.
  - apply (Hthree urlmodel.lib); reflexivity.
Defined.

(** * Further properties of the code *)

(** ** Package checker: bounds of the retry loop *)

Section retry_loop_bounds.

Import checker models.

Variable w : World.
Variable targetURL : string.




(** With an error pending, a status read, or one iteration left to run, the
    result of the loop has a status code or an error. *)
Lemma attempts_status_or_error remaining attempt backoff result lastErr :
  is_Some (StatusCode result) ∨ is_Some lastErr ∨ (0 < remaining)%nat →
  let out := attempts w targetURL remaining attempt backoff result lastErr in
  is_Some (StatusCode out.1) ∨ is_Some (Error out.1).
Proof.
  revert attempt backoff result lastErr.
  induction remaining as [|n IH]; intros attempt backoff result lastErr Hpre; simpl.
  { destruct Hpre as [Hs|[[err ->]|Hn]]; [|simpl; eauto|lia].
    left. by destruct lastErr. }
  repeat (case_match; simpl); eauto; apply IH; simpl; eauto.
Qed.

(** The error of the result stays empty only through the exit taken by a
    response below 500. *)
Lemma attempts_error_free remaining attempt backoff result lastErr :
  Error result = None →
  let out := attempts w targetURL remaining attempt backoff result lastErr in
  Error out.1 = None →
  (remaining = 0%nat ∧ lastErr = None)
  ∨ (∃ i c, last out.2 = Some (EvDo i (Response c)) ∧ c < 500).
Proof.
  revert attempt backoff result lastErr.
  induction remaining as [|n IH]; intros attempt backoff result lastErr Hres; simpl.
  { destruct lastErr; simpl; [discriminate|auto]. }
  assert (Hrec : ∀ a b r l e,
             Error r = None →
             Error (attempts w targetURL n a b r (Some l)).1 = None →
             ∃ i c, last (e :: (attempts w targetURL n a b r (Some l)).2)
                    = Some (EvDo i (Response c)) ∧ c < 500).
  { intros a b r l e Hr Hnone.
    destruct (IH a b r (Some l) Hr Hnone) as [[_ [=]]|(i & c & Hlast & Hc)].
    exists i, c. split; [|done].
    destruct (attempts w targetURL n a b r (Some l)).2; [done|exact Hlast]. }
  repeat (case_match; simpl); try discriminate; intros Hnone; right;
    try (by apply Hrec); by eauto.
Qed.

End retry_loop_bounds.


(** X2. Whatever the world answers, the result of a probe carries a status
    code or an error (or both): it is never empty. *)
Theorem performCheck_status_or_error :
  ∀ (w : checker.World) (targetURL : string),
    is_Some (models.StatusCode (checker.performCheck w targetURL))
    ∨ is_Some (models.Error (checker.performCheck w targetURL)).
Proof.
  intros w targetURL. apply attempts_status_or_error.
  right. right. unfold checker.maxAttempts. lia.
Qed.

(** X3. The result of a probe has no error exactly when the last step of
    the probe is a response with a status below 500. *)
Theorem performCheck_error_free_iff :
  ∀ (w : checker.World) (targetURL : string),
    models.Error (checker.performCheck w targetURL) = None
    ↔ ∃ i c, last (checker.performCheck_trace w targetURL).2
             = Some (checker.EvDo i (checker.Response c)) ∧ c < 500.
Proof.
  intros w targetURL. split.
  - intros Hnone.
    destruct (attempts_error_free w targetURL checker.maxAttempts 0 200
                (models.mkCheckResult gotime.zero None 0 None) None eq_refl Hnone)
      as [[[=] _]|Hlast]; done.
  - intros (i & c & Hlast & Hc).
    assert (Hin : In (checker.EvDo i (checker.Response c))
                    (checker.performCheck_trace w targetURL).2).
    { apply list_elem_of_In. by apply last_Some_elem_of. }
    apply (attempts_terminal_response w targetURL _ _ _ _ _ i c Hin Hc).
Qed.

(** X4. The probe sleeps only before its second and third attempts, 200 ms
    and then 400 ms: no other backoff step occurs in any run. *)
Theorem performCheck_backoff_schedule :
  ∀ (w : checker.World) (targetURL : string) (attempt : nat) (duration_ms : Z)
    (o : checker.wait_outcome),
    In (checker.EvBackoff attempt duration_ms o) (checker.performCheck_trace w targetURL).2 →
    (attempt = 1%nat ∧ duration_ms = 200) ∨ (attempt = 2%nat ∧ duration_ms = 400).
Proof.
  intros w targetURL attempt d o.
  unfold checker.performCheck_trace, checker.maxAttempts. simpl.
  repeat (case_match; simpl);
    intros Hin;
    repeat match goal with
      | H : _ ∨ _ |- _ => destruct H as [H|H]
      | H : False |- _ => destruct H
      end;
    simplify_eq; auto.
Qed.

Lemma performCheck_backoff_schedule_witness :
  In (checker.EvBackoff 2 400 checker.Proceeded)
    (checker.performCheck_trace (scenario.always 500) "http://a.test").2
  ∧ ((2%nat = 1%nat ∧ 400 = 200) ∨ (2%nat = 2%nat ∧ 400 = 400)).
Proof.
  assert (Hin : In (checker.EvBackoff 2 400 checker.Proceeded)
                  (checker.performCheck_trace (scenario.always 500) "http://a.test").2).
  { vm_compute. tauto. }
  split; [exact Hin|].
  exact (performCheck_backoff_schedule (scenario.always 500) "http://a.test" 2 400
           checker.Proceeded Hin).
Defined.

(** A failed call of [client.Do] whose error is not a network error is the
    last step of the loop, and its text is the error of the result. *)
Lemma attempts_terminal_failure (w : checker.World) (targetURL : string)
    remaining attempt backoff result lastErr i err :
  checker.isNetworkError err = false →
  In (checker.EvDo i (checker.Failed err))
    (checker.attempts w targetURL remaining attempt backoff result lastErr).2 →
  let out := checker.attempts w targetURL remaining attempt backoff result lastErr in
  last out.2 = Some (checker.EvDo i (checker.Failed err))
  ∧ models.Error out.1 = Some (checker.msg err).
Proof.
  intros Hnet. revert attempt backoff result lastErr.
  induction remaining as [|n IH]; intros attempt backoff result lastErr Hin;
    simpl in *; [done|].
  repeat (case_match; simpl in * );
    repeat match goal with
      | H : _ ∨ _ |- _ => destruct H as [H|H]; [simplify_eq; try done; try congruence|]
      | H : False |- _ => destruct H
      end;
    try congruence;
    destruct (IH _ _ _ _ Hin) as (Hl & He);
    (split; [|exact He]);
    rewrite <- Hl;
    repeat (rewrite (last_cons_in (checker.EvDo i (checker.Failed err))) by (simpl; auto));
    done.
Qed.

(** X5. Transport errors. [isNetworkError] looks at the dynamic type of the
    error alone, and a [*url.Error], which is what [client.Do] returns for
    every failure, whatever it wraps, is no network error. An error of
    [client.Do] that is no network error ends the probe at once. At the
    first attempt: one call of [client.Do], no status code, the error's
    text in the result. At any attempt: the failed call is the last step of
    the probe, no sleep and no call follows it, and the result carries the
    error's text. *)
Theorem performCheck_transport_errors :
  (∀ err : checker.error,
     checker.dyn err = checker.URLError → checker.isNetworkError err = false)
  ∧ (∀ (w : checker.World) (targetURL : string) (err : checker.error),
     checker.new_request w targetURL = None →
     checker.client_do w 0 = checker.Failed err →
     checker.isNetworkError err = false →
     checker.performCheck_trace w targetURL
     = (models.mkCheckResult gotime.zero None 0 (Some (checker.msg err)),
        [checker.EvNewRequest 0 None; checker.EvDo 0 (checker.Failed err)]))
  ∧ (∀ (w : checker.World) (targetURL : string) (i : nat) (err : checker.error),
     checker.isNetworkError err = false →
     In (checker.EvDo i (checker.Failed err)) (checker.performCheck_trace w targetURL).2 →
     last (checker.performCheck_trace w targetURL).2
     = Some (checker.EvDo i (checker.Failed err))
     ∧ models.Error (checker.performCheck w targetURL) = Some (checker.msg err)).
Proof.
  split_and!.
  - intros err Hdyn. unfold checker.isNetworkError. by rewrite Hdyn.
  - intros w targetURL err Hreq Hdo Hnet.
    unfold checker.performCheck_trace. simpl. by rewrite Hreq, Hdo, Hnet.
  - intros w targetURL i err Hnet Hin.
    by apply (attempts_terminal_failure w targetURL _ _ _ _ _ i err).
Qed.

Lemma performCheck_transport_errors_witness :
  checker.isNetworkError fixtures.refused = false
  ∧ checker.performCheck_trace fixtures.unreachable "http://127.0.0.1:1/"
    = (models.mkCheckResult gotime.zero None 0 (Some (checker.msg fixtures.refused)),
       [checker.EvNewRequest 0 None; checker.EvDo 0 (checker.Failed fixtures.refused)])
  ∧ (last (checker.performCheck_trace fixtures.refused_after_503 "http://127.0.0.1:1/").2
     = Some (checker.EvDo 1 (checker.Failed fixtures.refused))
     ∧ models.Error (checker.performCheck fixtures.refused_after_503 "http://127.0.0.1:1/")
       = Some (checker.msg fixtures.refused)).
Proof.
  destruct performCheck_transport_errors as (Htype & Hfirst & Hany).
  split; [|split].
  - apply (Htype fixtures.refused). reflexivity.
  - apply (Hfirst fixtures.unreachable "http://127.0.0.1:1/" fixtures.refused);
      reflexivity.
  - apply (Hany fixtures.refused_after_503 "http://127.0.0.1:1/" 1%nat fixtures.refused).
    + reflexivity.
    + vm_compute. tauto.
Defined.

(** ** Package checker: what a probe leaves behind *)

(** X6. [checkTarget] changes neither the targets nor the idempotency keys.
    It appends at most one CheckResult, filed under the target's id, stamped
    with the start of the probe and the elapsed time, and holding the status
    and error of [performCheck]. It removes no per-host gate; when the
    target's URL parses, the gate of its host exists afterwards, also when
    the wait for it was cancelled; when the URL does not parse nothing
    changes at all. *)
Theorem checkTarget_frame :
  ∀ (lib : neturl.Lib) (w : checker.World) (c : checker.Checker) (target : models.Target),
    let c' := checker.checkTarget w c target in
    storage.targets (checker.store c') = storage.targets (checker.store c)
    ∧ storage.idempotency_keys (checker.store c')
      = storage.idempotency_keys (checker.store c)
    ∧ (storage.check_results (checker.store c') = storage.check_results (checker.store c)
       ∨ storage.check_results (checker.store c')
         = storage.check_results (checker.store c)
           ++ [(models.ID target,
                models.mkCheckResult (checker.clock_start w)
                  (models.StatusCode (checker.performCheck w (models.URL target)))
                  (checker.elapsed_ms w)
                  (models.Error (checker.performCheck w (models.URL target))))])
    ∧ checker.hostSems c ⊆ checker.hostSems c'
    ∧ match neturl.Parse (models.URL target) with
      | inl parsed => neturl.Host parsed ∈ checker.hostSems c'
      | inr _ => c' = c
      end.
Proof.
  intros lib w c target. unfold checker.checkTarget.
  destruct (neturl.Parse (models.URL target)) as [parsed|err]; simpl.
  2: { split_and!; auto. }
  assert (Hsem : checker.store (checker.getHostSemaphore c (neturl.Host parsed))
                 = checker.store c
                 ∧ checker.hostSems c
                   ⊆ checker.hostSems (checker.getHostSemaphore c (neturl.Host parsed))
                 ∧ neturl.Host parsed
                   ∈ checker.hostSems (checker.getHostSemaphore c (neturl.Host parsed))).
  { unfold checker.getHostSemaphore. case_decide; simpl; set_solver. }
  destruct Hsem as (Hstore & Hsub & Hin).
  destruct (checker.gate_wait w); simpl; rewrite Hstore; split_and!; auto.
Qed.

(** X7. With the policy installed by [New], one call of [client.Do] sends at
    most 5 requests, whatever the server answers: given fuel for 5 requests
    the redirect loop ends, and when the policy stops it exactly 5 requests
    have been sent. *)
Theorem client_follow_at_most_five_requests :
  ∀ (server : nat → option string) (fuel : nat) (req : string),
    (5 ≤ fuel)%nat →
    ∃ reqs err,
      checker.client_follow checker.CheckRedirect server fuel [] req = Some (reqs, err)
      ∧ (length reqs ≤ 5)%nat
      ∧ (is_Some err → length reqs = 5%nat).
Proof.
  intros server fuel req Hfuel.
  assert (Hgen : ∀ fuel reqs req,
            (5 ≤ fuel + length reqs)%nat → (length reqs < 5)%nat →
            ∃ reqs' err,
              checker.client_follow checker.CheckRedirect server fuel reqs req
              = Some (reqs', err)
              ∧ (length reqs' ≤ 5)%nat ∧ (is_Some err → length reqs' = 5%nat)).
  { clear. intros fuel. induction fuel as [|fuel IH]; intros reqs req Hf Hlen.
    { lia. }
    simpl. destruct (server _) as [loc|].
    - unfold checker.CheckRedirect at 1. rewrite List.length_app. simpl.
      case_decide as Hfive.
      + eexists _, _. split; [done|]. rewrite List.length_app. simpl.
        split; [lia|]. intros _. lia.
      + apply IH; rewrite List.length_app; simpl; lia.
    - eexists _, None. split; [done|]. rewrite List.length_app. simpl.
      split; [lia|]. by intros [? [=]]. }
  apply Hgen; simpl; lia.
Qed.

Lemma client_follow_at_most_five_requests_witness :
  ∃ reqs err,
    checker.client_follow checker.CheckRedirect (λ _, Some "/again") 7 [] "/"
    = Some (reqs, err)
    ∧ (length reqs ≤ 5)%nat
    ∧ (is_Some err → length reqs = 5%nat).
Proof.
  apply (client_follow_at_most_five_requests (λ _, Some "/again") 7 "/"). lia.
Defined.

(** ** Package main: the dispatch of initDB, in full *)

(** X8. What [initDB] does with every DATABASE_URL, the empty one standing
    for [sqlite3://linkwatch.db]: it panics when the URL has fewer than 11
    bytes, or fewer than 13 and not the prefix [postgres://]; otherwise it
    selects the postgres driver exactly for the prefixes [postgres://] and
    [postgresql://] and the sqlite3 driver for everything else, and the data
    source name is always the URL as a whole. *)
Theorem initDB_dispatch :
  ∀ databaseURL : string,
    let url := if decide (databaseURL = "") then "sqlite3://linkwatch.db"
               else databaseURL in
    main.initDB databaseURL
    = if decide (String.length url < 11)%nat then None
      else if String.prefix "postgres://" url then Some ("postgres", url)
      else if decide (String.length url < 13)%nat then None
      else if String.prefix "postgresql://" url then Some ("postgres", url)
      else Some ("sqlite3", url).
Proof.
  intros databaseURL url. unfold main.initDB. fold url.
  assert (Hpre : ∀ p : string,
            (String.length p ≤ String.length url)%nat →
            (if decide (String.substring 0 (String.length p) url = p)
             then true else false) = String.prefix p url).
  { intros p _. destruct (String.prefix p url) eqn:Hp.
    - apply String.prefix_correct in Hp. by rewrite decide_True.
    - case_decide as Heq; [|done].
      apply String.prefix_correct in Heq. congruence. }
  destruct (gostr.slice_to url 9) as [p9|] eqn:H9; simpl.
  2: { unfold gostr.slice_to in H9. case_decide; [done|].
       destruct (decide (String.length url < 11)%nat); [done|lia]. }
  pose proof (initDB_first_test_fails _ _ H9) as Hne.
  rewrite (decide_False (P := p9 = "sqlite3://")) by done.
  unfold gostr.slice_to.
  destruct (decide (11 ≤ String.length url)%nat) as [H11|H11];
    destruct (decide (String.length url < 11)%nat); try lia; simpl; [|done].
  specialize (Hpre "postgres://" H11) as Hp11. simpl in Hp11. rewrite <- Hp11.
  destruct (decide (String.substring 0 11 url = "postgres://")); [done|].
  destruct (decide (13 ≤ String.length url)%nat) as [H13|H13];
    destruct (decide (String.length url < 13)%nat); try lia; simpl; [|done].
  specialize (Hpre "postgresql://" H13) as Hp13. simpl in Hp13. rewrite <- Hp13.
  by destruct (decide (String.substring 0 13 url = "postgresql://")).
Qed.

(** ** Package storage: what CreateTarget does to the store *)

Section CreateTarget_outcome_lemmas.

Import storage.

Lemma select_by_canonical_elem (s : Storage) (c : string) (r : target_row) :
  select_by_canonical s c = Some r → r ∈ targets s ∧ canonical_url r = c.
Proof.
  unfold select_by_canonical.
  intros ([j r'] & (Hj & Hc & _)%list_find_Some & ->)%fmap_Some.
  split; [by eapply list_elem_of_lookup_2|done].
Qed.

Lemma select_by_id_elem (s : Storage) (i : string) (r : target_row) :
  select_by_id s i = Some r → r ∈ targets s ∧ id r = i.
Proof.
  unfold select_by_id.
  intros ([j r'] & (Hj & Hc & _)%list_find_Some & ->)%fmap_Some.
  split; [by eapply list_elem_of_lookup_2|done].
Qed.

Lemma select_by_id_is_Some (s : Storage) (r : target_row) :
  r ∈ targets s → is_Some (select_by_id s (id r)).
Proof.
  intros Hin. unfold select_by_id.
  destruct (list_find_elem_of (λ r', id r' = id r) (targets s) r Hin eq_refl)
    as [[j r'] ->].
  by eexists.
Qed.

(** The three ways a call ends. *)
Lemma CreateTarget_outcomes_aux (s : Storage) unix_nano now u c key :
  let out := CreateTarget s unix_nano now u c key in
  check_results out.1 = check_results s
  ∧ match out.2 with
    | Err _ => out.1 = s
    | Ok (t, false) =>
        targets out.1 = targets s ∧ ∃ r, r ∈ targets s ∧ scan r = t
    | Ok (t, true) =>
        select_by_canonical s c = None
        ∧ t = models.mkTarget (generateID "t_" unix_nano) u now
        ∧ targets out.1
          = targets s ++ [mkTargetRow (generateID "t_" unix_nano) u c now]
    end.
Proof.
  unfold CreateTarget.
  destruct (select_by_canonical s c) as [existing|] eqn:Hcan; simpl.
  { apply select_by_canonical_elem in Hcan as [Hin _].
    destruct key as [k|]; simpl; [unfold insert_or_ignore_key; case_match|];
      simpl; eauto. }
  destruct (key ≫= _) as [row|] eqn:Hkey; simpl.
  { destruct (select_by_id s (target_id row)) as [r|] eqn:Hid; simpl; [|done].
    apply select_by_id_elem in Hid as [Hin _]. eauto. }
  destruct (insert_target _ s) as [s1|] eqn:Hins; simpl; [|done].
  destruct (insert_target_keys _ _ _ Hins) as [Hkeys Htargets].
  assert (Hres : check_results s1 = check_results s).
  { unfold insert_target in Hins. case_decide; [done|]. by injection Hins as <-. }
  destruct key as [k|]; simpl in *; [|done].
  unfold insert_key. rewrite Hkeys, Hkey. simpl. done.
Qed.

End CreateTarget_outcome_lemmas.

(** X9. [CreateTarget] never touches the check results. When it returns an
    error the store is as before. When it returns [is_new = false] no target
    is added and the target returned is a stored one. When it returns
    [is_new = true] the canonical URL was not registered, the target
    returned has the generated id, the URL as submitted and the time of the
    call, and exactly its row is appended to the targets. *)
Theorem CreateTarget_outcomes :
  ∀ (s : storage.Storage) (unix_nano now : Z) (originalURL canonicalURL : string)
    (idempotencyKey : option string),
    let out := storage.CreateTarget s unix_nano now originalURL canonicalURL
                 idempotencyKey in
    storage.check_results out.1 = storage.check_results s
    ∧ match out.2 with
      | storage.Err _ => out.1 = s
      | storage.Ok (t, false) =>
          storage.targets out.1 = storage.targets s
          ∧ ∃ r, r ∈ storage.targets s ∧ storage.scan r = t
      | storage.Ok (t, true) =>
          storage.select_by_canonical s canonicalURL = None
          ∧ t = models.mkTarget (storage.generateID "t_" unix_nano) originalURL now
          ∧ storage.targets out.1
            = storage.targets s
              ++ [storage.mkTargetRow (storage.generateID "t_" unix_nano) originalURL
                    canonicalURL now]
      end.
Proof. intros. apply CreateTarget_outcomes_aux. Qed.

Lemma CreateTarget_registered_aux (s : storage.Storage) (unix_nano now : Z)
    (originalURL canonicalURL : string) (idempotencyKey : option string)
    (r : storage.target_row) :
  storage.select_by_canonical s canonicalURL = Some r →
  let out := storage.CreateTarget s unix_nano now originalURL canonicalURL
               idempotencyKey in
  out.2 = storage.Ok (storage.scan r, false)
  ∧ storage.targets out.1 = storage.targets s
  ∧ (∀ k row, storage.idempotency_keys s !! k = Some row →
              storage.idempotency_keys out.1 !! k = Some row)
  ∧ (∀ k, idempotencyKey = Some k → storage.idempotency_keys s !! k = None →
          storage.idempotency_keys out.1 !! k
          = Some (storage.mkKeyRow (storage.id r) now)).
Proof.
  intros Hcan. unfold storage.CreateTarget. rewrite Hcan. simpl.
  destruct idempotencyKey as [k|]; simpl.
  - unfold storage.insert_or_ignore_key.
    destruct (storage.idempotency_keys s !! k) as [row|] eqn:Hk; simpl.
    + split_and!; try done. intros k' [= <-]. congruence.
    + split_and!; try done.
      * intros k' row Hk'. rewrite lookup_insert_ne; [done|congruence].
      * intros k' [= <-] _. by rewrite lookup_insert_eq.
  - split_and!; done.
Qed.

(** X10. A registered canonical URL takes precedence over everything else:
    the call returns the registered target with [is_new = false] whatever
    the URL submitted and whatever the key, adds no target, keeps every
    recorded key on the target it has, and records the key of the call for
    the registered target when that key was not recorded. *)
Theorem CreateTarget_registered_url :
  ∀ (s : storage.Storage) (unix_nano now : Z) (originalURL canonicalURL : string)
    (idempotencyKey : option string) (r : storage.target_row),
    storage.select_by_canonical s canonicalURL = Some r →
    let out := storage.CreateTarget s unix_nano now originalURL canonicalURL
                 idempotencyKey in
    out.2 = storage.Ok (storage.scan r, false)
    ∧ storage.targets out.1 = storage.targets s
    ∧ (∀ k row, storage.idempotency_keys s !! k = Some row →
                storage.idempotency_keys out.1 !! k = Some row)
    ∧ (∀ k, idempotencyKey = Some k → storage.idempotency_keys s !! k = None →
            storage.idempotency_keys out.1 !! k
            = Some (storage.mkKeyRow (storage.id r) now)).
Proof. intros s n now u c key r Hcan. by apply CreateTarget_registered_aux. Qed.

Lemma CreateTarget_registered_url_witness :
  let out := storage.CreateTarget scenario.after_a_com 5000 5000 "https://A.com/"
               "https://a.com" (Some "k9") in
  out.2 = storage.Ok (scenario.a_com, false)
  ∧ storage.targets out.1 = storage.targets scenario.after_a_com
  ∧ (∀ k row, storage.idempotency_keys scenario.after_a_com !! k = Some row →
              storage.idempotency_keys out.1 !! k = Some row)
  ∧ (∀ k, Some "k9" = Some k → storage.idempotency_keys scenario.after_a_com !! k = None →
          storage.idempotency_keys out.1 !! k = Some (storage.mkKeyRow "t_1000" 5000)).
Proof.
  apply (CreateTarget_registered_url scenario.after_a_com 5000 5000 "https://A.com/"
           "https://a.com" (Some "k9")
           (storage.mkTargetRow "t_1000" "https://a.com" "https://a.com" 1000)).
  vm_compute. reflexivity.
Defined.

(** A call that reports a new target has registered its row for the
    canonical URL. *)
Lemma CreateTarget_new_registered (s s1 : storage.Storage) (unix_nano now : Z)
    (u c : string) (key : option string) (t : models.Target) :
  storage.CreateTarget s unix_nano now u c key = (s1, storage.Ok (t, true)) →
  storage.select_by_canonical s1 c
  = Some (storage.mkTargetRow (storage.generateID "t_" unix_nano) u c now)
  ∧ t = models.mkTarget (storage.generateID "t_" unix_nano) u now.
Proof.
  unfold storage.CreateTarget.
  destruct (storage.select_by_canonical s c); [by intros [= _ _ ?]|].
  destruct (key ≫= _) as [row|].
  { by destruct (storage.select_by_id s (storage.target_id row)). }
  destruct (storage.insert_target _ s) as [s'|] eqn:Hins; [|done].
  pose proof (select_by_canonical_inserted _ _ _ Hins) as Hsel. simpl in Hsel.
  destruct key as [k|].
  - destruct (storage.insert_key k _ now s') as [s2|] eqn:Hkey; [|done].
    intros [= <- <-]. split; [|done].
    unfold storage.insert_key in Hkey. case_match; [done|]. by injection Hkey as <-.
  - by intros [= <- <-].
Qed.

Lemma CreateTarget_twice_aux (s s1 : storage.Storage) (unix_nano1 now1 : Z)
    (u1 canonicalURL : string) (key1 : option string) (t : models.Target)
    (unix_nano2 now2 : Z) (u2 : string) (key2 : option string) :
  storage.CreateTarget s unix_nano1 now1 u1 canonicalURL key1 = (s1, storage.Ok (t, true)) →
  let out := storage.CreateTarget s1 unix_nano2 now2 u2 canonicalURL key2 in
  out.2 = storage.Ok (t, false) ∧ storage.targets out.1 = storage.targets s1.
Proof.
  rename unix_nano1 into n1, unix_nano2 into n2, canonicalURL into c.
  intros Hfirst.
  destruct (CreateTarget_new_registered _ _ _ _ _ _ _ _ Hfirst) as [Hcan ->].
  destruct (CreateTarget_registered_aux s1 n2 now2 u2 c key2 _ Hcan) as (Hout & Htg & _).
  done.
Qed.

(** No call takes a registration away: the targets are only appended to. *)
Lemma select_by_canonical_run_ops (timestamp_text : gotime.Time → string)
    (ops : list storage.op) (s : storage.Storage) (c : string) (r : storage.target_row) :
  storage.select_by_canonical s c = Some r →
  storage.select_by_canonical (storage.run_ops timestamp_text s ops) c = Some r.
Proof.
  revert s. induction ops as [|o ops IH]; intros s Hsel; [done|].
  apply IH. destruct o as [n now u c' key|tid res|cutoff]; simpl; [|done..].
  pose proof (CreateTarget_outcomes_aux s n now u c' key) as [_ Hout].
  destruct (storage.CreateTarget s n now u c' key) as [s' [[t isNew]|err]];
    simpl in *; [|by rewrite Hout].
  unfold storage.select_by_canonical in *.
  destruct isNew.
  - destruct Hout as (_ & _ & ->).
    apply fmap_Some in Hsel as ([j r'] & Hf & ->).
    by rewrite (list_find_app_l _ _ _ _ _ Hf).
  - destruct Hout as [-> _]. done.
Qed.

(** X11. Registering twice: once a call has created a target for a canonical
    URL, every later call with that canonical URL - whatever its URL, key
    and time, and whatever calls of [CreateTarget], [SaveCheckResult] and
    [CleanupOldIdempotencyKeys] were made in between - returns that same
    target with [is_new = false] and adds no target. *)
Theorem CreateTarget_twice :
  ∀ (timestamp_text : gotime.Time → string)
    (s s1 : storage.Storage) (unix_nano1 now1 : Z) (u1 canonicalURL : string)
    (key1 : option string) (t : models.Target) (between : list storage.op)
    (unix_nano2 now2 : Z) (u2 : string) (key2 : option string),
    storage.CreateTarget s unix_nano1 now1 u1 canonicalURL key1 = (s1, storage.Ok (t, true)) →
    let s2 := storage.run_ops timestamp_text s1 between in
    let out := storage.CreateTarget s2 unix_nano2 now2 u2 canonicalURL key2 in
    out.2 = storage.Ok (t, false) ∧ storage.targets out.1 = storage.targets s2.
Proof.
  intros text s s1 n1 now1 u1 c key1 t between n2 now2 u2 key2 Hfirst s2.
  destruct (CreateTarget_new_registered _ _ _ _ _ _ _ _ Hfirst) as [Hcan ->].
  apply (select_by_canonical_run_ops text between) in Hcan. fold s2 in Hcan.
  destruct (CreateTarget_registered_aux s2 n2 now2 u2 c key2 _ Hcan) as (Hout & Htg & _).
  done.
Qed.

Lemma CreateTarget_twice_witness :
  let s2 := storage.run_ops sqlite3.timestamp_text scenario.after_a_com
              scenario.later_ops in
  let out := storage.CreateTarget s2 7000 7000 "HTTPS://A.COM" "https://a.com" None in
  out.2 = storage.Ok (scenario.a_com, false)
  ∧ storage.targets out.1 = storage.targets s2.
Proof.
  apply (CreateTarget_twice sqlite3.timestamp_text storage.empty scenario.after_a_com
           1000 1000 "https://a.com" "https://a.com" (Some "k1") scenario.a_com
           scenario.later_ops).
  vm_compute. reflexivity.
Defined.



(** ** Package storage: the constraints of the schema *)

Section consistency.

Import storage.

Lemma NoDup_fmap_snoc {A B} (f : A → B) (l : list A) (x : A) :
  NoDup (f <$> l) → (∀ y, y ∈ l → f y ≠ f x) → NoDup (f <$> (l ++ [x])).
Proof.
  intros Hnd Hfresh. rewrite fmap_app. apply NoDup_app. split_and!; [done| |].
  - intros b (y & -> & Hy)%list_elem_of_fmap Hin. simpl in Hin.
    apply list_elem_of_singleton in Hin. by apply (Hfresh y).
  - simpl. apply NoDup_singleton.
Qed.

Lemma consistent_insert_target (s s' : Storage) (r : target_row) :
  consistent s → insert_target r s = Some s' → consistent s'.
Proof.
  intros (Hid & Hurl & Hcan & Hfk) Hins.
  pose proof Hins as Hins'. unfold insert_target in Hins'.
  case_decide as Hex; [done|]. injection Hins' as <-.
  assert (Hfresh : ∀ y, y ∈ targets s →
            id y ≠ id r ∧ url y ≠ url r ∧ canonical_url y ≠ canonical_url r).
  { intros y Hy.
    split_and!; intros Heq; apply Hex, Exists_exists; exists y; (split; [done|]);
      simpl; auto. }
  split_and!; simpl.
  - apply NoDup_fmap_snoc; [done|]. intros y Hy. by apply Hfresh.
  - apply NoDup_fmap_snoc; [done|]. intros y Hy. by apply Hfresh.
  - apply NoDup_fmap_snoc; [done|]. intros y Hy. by apply Hfresh.
  - intros k row Hk. destruct (Hfk k row Hk) as [r' Hr'].
    exists r'. by apply select_by_id_app.
Qed.

Lemma consistent_record_key (s : Storage) (k : string) (r : target_row) (now : Z) :
  consistent s → r ∈ targets s →
  consistent (with_keys (<[k := mkKeyRow (id r) now]> (idempotency_keys s)) s).
Proof.
  intros (Hid & Hurl & Hcan & Hfk) Hin. split_and!; try done.
  simpl. intros k' row. destruct (decide (k = k')) as [<-|Hne].
  - rewrite lookup_insert_eq. intros [= <-]. simpl. by apply select_by_id_is_Some.
  - rewrite lookup_insert_ne by done. apply Hfk.
Qed.

Lemma consistent_CreateTarget (s : Storage) unix_nano now u c key :
  consistent s → consistent (CreateTarget s unix_nano now u c key).1.
Proof.
  intros Hs. unfold CreateTarget.
  destruct (select_by_canonical s c) as [existing|] eqn:Hcan; simpl.
  { destruct key as [k|]; simpl; [|done]. unfold insert_or_ignore_key.
    case_match; [done|].
    apply consistent_record_key; [done|].
    by apply select_by_canonical_elem in Hcan as [? _]. }
  destruct (key ≫= _) as [row|] eqn:Hkey; simpl.
  { by destruct (select_by_id s (target_id row)). }
  destruct (insert_target _ s) as [s1|] eqn:Hins; simpl; [|done].
  pose proof (consistent_insert_target _ _ _ Hs Hins) as Hs1.
  destruct key as [k|]; simpl in *; [|done].
  destruct (insert_target_keys _ _ _ Hins) as [Hkeys Htargets].
  unfold insert_key. rewrite Hkeys, Hkey. simpl. rewrite <- Hkeys.
  apply (consistent_record_key s1 k
           (mkTargetRow (generateID "t_" unix_nano) u c now) now Hs1).
  rewrite Htargets.
  apply list_elem_of_In, in_app_iff. right. by left.
Qed.

Lemma consistent_run_op (timestamp_text : gotime.Time → string) (s : Storage) (o : op) :
  consistent s → consistent (run_op timestamp_text s o).
Proof.
  intros Hs. destruct o as [n now u c key|tid r|cutoff]; simpl.
  - by apply consistent_CreateTarget.
  - done.
  - destruct Hs as (Hid & Hurl & Hcan & Hfk). split_and!; try done.
    simpl. intros k row (Hk & _)%map_lookup_filter_Some. by apply (Hfk k).
Qed.

End consistency.

(** X13. Every store reached from the empty one by calls of [CreateTarget],
    [SaveCheckResult] and [CleanupOldIdempotencyKeys] keeps what the schema
    asks for: no two targets share an id, a URL or a canonical URL, and
    every recorded idempotency key points to a stored target. This holds
    whatever text the driver stores for a time. *)
Theorem run_ops_consistent :
  ∀ (timestamp_text : gotime.Time → string) (ops : list storage.op),
    storage.consistent (storage.run_ops timestamp_text storage.empty ops).
Proof.
  intros text ops. unfold storage.run_ops.
  assert (Hgen : ∀ s, storage.consistent s →
                      storage.consistent (foldl (storage.run_op text) s ops)).
  { induction ops as [|o ops IH]; intros s Hs; simpl; [done|].
    by apply IH, consistent_run_op. }
  apply Hgen. split_and!; try apply NoDup_nil_2.
  intros k row Hk. simpl in Hk. by rewrite lookup_empty in Hk.
Qed.

(** X14. Without the maintenance call, a recorded idempotency key is never
    rebound: through any calls of [CreateTarget] and [SaveCheckResult] it
    keeps the target and the time it was recorded with. *)
Theorem recorded_key_is_kept :
  ∀ (calls : list storage.call) (s : storage.Storage) (k : string) (row : storage.key_row),
    storage.idempotency_keys s !! k = Some row →
    storage.idempotency_keys (storage.run_calls s calls) !! k = Some row.
Proof.
  induction calls as [|c calls IH]; intros s k row Hk; [done|].
  apply IH. destruct c as [n now u cu key|tid r]; simpl; [|done].
  unfold storage.CreateTarget.
  destruct (storage.select_by_canonical s cu) as [existing|]; simpl.
  { destruct key as [k'|]; simpl; [|done]. unfold storage.insert_or_ignore_key.
    destruct (storage.idempotency_keys s !! k') eqn:Hk'; [done|]. simpl.
    rewrite lookup_insert_ne; [done|congruence]. }
  destruct (key ≫= _) as [row'|] eqn:Hkey; simpl.
  { by destruct (storage.select_by_id s (storage.target_id row')). }
  destruct (storage.insert_target _ s) as [s1|] eqn:Hins; simpl; [|done].
  destruct (insert_target_keys _ _ _ Hins) as [Hkeys _].
  destruct key as [k'|]; simpl in *; [|by rewrite Hkeys].
  unfold storage.insert_key. rewrite Hkeys, Hkey. simpl.
  rewrite lookup_insert_ne; [done|congruence].
Qed.

Lemma recorded_key_is_kept_witness :
  storage.idempotency_keys (storage.run_calls scenario.after_a_com scenario.later_calls)
    !! "k1"
  = Some (storage.mkKeyRow "t_1000" 1000).
Proof.
  apply (recorded_key_is_kept scenario.later_calls scenario.after_a_com "k1").
  vm_compute. reflexivity.
Defined.

(** ** Package storage: pages of ListTargets *)

Section ListTargets_pages.

Import storage.

Variable formatRFC3339Nano : Z → string.
Variable compare_created_at : Z → string → comparison.

#[local] Instance row_le_total : Total row_le.
Proof.
  intros a b. unfold row_le, row_leb.
  destruct (Z.lt_total (created_at a) (created_at b)) as [Hlt|[Heq|Hgt]].
  - left. apply orb_True. left. by apply bool_decide_pack.
  - destruct (String.le_total (id a) (id b)) as [Hle|Hle]; [left|right];
      apply orb_True; right; apply andb_True; (split; [by apply bool_decide_pack|done]).
  - right. apply orb_True. left. apply bool_decide_pack. lia.
Qed.

Lemma row_le_target_le (a b : target_row) : row_le a b → target_le (scan a) (scan b).
Proof.
  unfold row_le, row_leb, target_le. simpl.
  intros [Hlt|[Heq Hle]%andb_True]%orb_True.
  - left. by apply bool_decide_unpack in Hlt.
  - right. split; [by apply bool_decide_unpack in Heq|done].
Qed.

Lemma Sorted_take {A} (R : relation A) (n : nat) (l : list A) :
  Sorted R l → Sorted R (take n l).
Proof.
  intros Hs. revert n. induction Hs as [|x l Hs IH Hhd]; intros [|n]; simpl;
    try constructor; [apply IH|].
  destruct Hhd; destruct n; simpl; by constructor.
Qed.

Lemma Sorted_sql_limit {A} (R : relation A) (n : Z) (l : list A) :
  Sorted R l → Sorted R (sql_limit n l).
Proof. unfold sql_limit. case_decide; [done|]. apply Sorted_take. Qed.

Lemma sql_limit_sublist {A} (n : Z) (l : list A) : sql_limit n l `sublist_of` l.
Proof. unfold sql_limit. case_decide; [done|]. apply sublist_take. Qed.

Lemma int_in_range (z : Z) : -2 ^ 63 ≤ z < 2 ^ 63 → gostr.int z = z.
Proof.
  intros Hz. unfold gostr.int.
  rewrite Z.mod_small; lia.
Qed.

Lemma int_wraps : gostr.int (2 ^ 63) = - 2 ^ 63.
Proof. reflexivity. Qed.

Lemma ListTargets_unfold (s : Storage) (host : option string) (limit : Z)
    (pageToken : string) :
  ListTargets formatRFC3339Nano compare_created_at s host limit pageToken
  = let targets := scan <$> fetched compare_created_at s host limit pageToken in
    if decide (Z.of_nat (length targets) > limit) then
      _ ← guard (0 ≤ limit);
      last ← (if decide (0 ≤ limit - 1) then targets !! Z.to_nat (limit - 1) else None);
      Some (models.mkTargetList (take (Z.to_nat limit) targets)
              (formatRFC3339Nano (models.CreatedAt last) +:+ "_" +:+ models.ID last))
    else Some (models.mkTargetList targets "").
Proof. reflexivity. Qed.

Lemma fetched_sorted (s : Storage) host limit pageToken :
  Sorted target_le (scan <$> fetched compare_created_at s host limit pageToken).
Proof.
  apply (Sorted_fmap _ row_le); [apply row_le_target_le|].
  apply Sorted_sql_limit, Sorted_merge_sort, _.
Qed.

Lemma fetched_selected (s : Storage) host limit pageToken (r : target_row) :
  r ∈ fetched compare_created_at s host limit pageToken →
  r ∈ targets s ∧ where_clause compare_created_at host pageToken r = true.
Proof.
  intros Hin. eapply elem_of_sublist in Hin; [|apply sql_limit_sublist].
  rewrite merge_sort_Permutation in Hin.
  unfold matching in Hin. apply list_elem_of_filter in Hin as [Hw Hin].
  split; [done|]. by apply Is_true_true.
Qed.

Lemma fetched_all (s : Storage) host limit pageToken :
  Z.of_nat (length (matching compare_created_at s host pageToken)) ≤ limit < 2 ^ 63 →
  fetched compare_created_at s host limit pageToken
  = merge_sort row_le (matching compare_created_at s host pageToken).
Proof.
  intros [Hlen Hmax]. unfold fetched, sql_limit. case_decide; [done|].
  apply take_ge.
  assert (Hl : length (merge_sort row_le (matching compare_created_at s host pageToken))
               = length (matching compare_created_at s host pageToken)).
  { apply Permutation_length, merge_sort_Permutation. }
  rewrite Hl.
  destruct (decide (limit + 1 = 2 ^ 63)) as [Heq|Hne].
  { rewrite Heq, int_wraps in *. lia. }
  rewrite int_in_range by lia. lia.
Qed.

Lemma fetched_length (s : Storage) host limit pageToken :
  0 ≤ limit < 2 ^ 63 - 1 →
  length (fetched compare_created_at s host limit pageToken)
  = Nat.min (Z.to_nat (limit + 1))
      (length (matching compare_created_at s host pageToken)).
Proof.
  intros Hl. unfold fetched, sql_limit. rewrite int_in_range by lia.
  rewrite decide_False by lia. rewrite length_take.
  f_equal. apply Permutation_length, merge_sort_Permutation.
Qed.

End ListTargets_pages.

Lemma ListTargets_page_size_aux (formatRFC3339Nano : Z → string)
    (compare_created_at : Z → string → comparison)
    (s : storage.Storage) (host : option string) (limit : Z) (pageToken : string) :
  1 ≤ limit →
  ∃ page,
    storage.ListTargets formatRFC3339Nano compare_created_at s host limit pageToken
    = Some page
    ∧ Z.of_nat (length (models.Items page)) ≤ limit.
Proof.
  rename formatRFC3339Nano into fmt, compare_created_at into cmp, pageToken into tok.
  intros Hlimit. rewrite ListTargets_unfold. simpl.
  set (targets := storage.scan <$> storage.fetched cmp s host limit tok).
  case_decide as Hmore.
  - rewrite option_guard_True by lia. simpl. rewrite decide_True by lia.
    destruct (lookup_lt_is_Some_2 targets (Z.to_nat (limit - 1))) as [t Ht]; [lia|].
    rewrite Ht. simpl. eexists. split; [done|]. simpl. rewrite length_take. lia.
  - eexists. split; [done|]. simpl. lia.
Qed.


(** X15. For a limit of at least 1, [ListTargets] returns a page (no slice
    expression is out of range), and the page holds at most [limit]
    targets. *)
Theorem ListTargets_page_size :
  ∀ (formatRFC3339Nano : Z → string) (compare_created_at : Z → string → comparison)
    (s : storage.Storage) (host : option string) (limit : Z) (pageToken : string),
    1 ≤ limit →
    ∃ page,
      storage.ListTargets formatRFC3339Nano compare_created_at s host limit pageToken
      = Some page
      ∧ Z.of_nat (length (models.Items page)) ≤ limit.
Proof. intros. by apply ListTargets_page_size_aux. Qed.

Lemma ListTargets_page_size_witness :
  ∃ page,
    storage.ListTargets (λ t, pretty t) (λ t text, (pretty t ?= text)%string)
      scenario.three_targets None 2 ""
    = Some page
    ∧ Z.of_nat (length (models.Items page)) ≤ 2.
Proof.
  apply (ListTargets_page_size (λ t, pretty t) (λ t text, (pretty t ?= text)%string)
           scenario.three_targets None 2 "").
  lia.
Defined.

(** X16. Every page of [ListTargets] is in the order (created_at, id)
    ascending, and each of its targets is a stored target that the WHERE
    clause of the call selects. *)
Theorem ListTargets_page_sorted_and_selected :
  ∀ (formatRFC3339Nano : Z → string) (compare_created_at : Z → string → comparison)
    (s : storage.Storage) (host : option string) (limit : Z) (pageToken : string)
    (page : models.TargetList),
    storage.ListTargets formatRFC3339Nano compare_created_at s host limit pageToken
    = Some page →
    Sorted storage.target_le (models.Items page)
    ∧ ∀ t, t ∈ models.Items page →
           ∃ r, r ∈ storage.targets s ∧ storage.scan r = t
                ∧ storage.where_clause compare_created_at host pageToken r = true.
Proof.
  intros fmt cmp s host limit tok page. rewrite ListTargets_unfold. simpl.
  pose proof (fetched_sorted cmp s host limit tok) as Hsorted.
  assert (Hsel : ∀ t, t ∈ storage.scan <$> storage.fetched cmp s host limit tok →
                      ∃ r, r ∈ storage.targets s ∧ storage.scan r = t
                           ∧ storage.where_clause cmp host tok r = true).
  { intros t (r & -> & Hr)%list_elem_of_fmap.
    destruct (fetched_selected cmp s host limit tok r Hr). eauto. }
  set (targets := storage.scan <$> storage.fetched cmp s host limit tok) in *.
  case_decide as Hmore.
  - destruct (guard (0 ≤ limit)); simpl; [|done].
    destruct (if decide (0 ≤ limit - 1) then _ else _) as [t|]; simpl; [|done].
    intros [= <-]. simpl. split; [by apply Sorted_take|].
    intros t' Hin. apply Hsel. eapply elem_of_sublist; [done|apply sublist_take].
  - intros [= <-]. simpl. done.
Qed.

Lemma ListTargets_page_sorted_and_selected_witness :
  Sorted storage.target_le [scenario.example_com; scenario.test_com]
  ∧ ∀ t, t ∈ [scenario.example_com; scenario.test_com] →
         ∃ r, r ∈ storage.targets scenario.three_targets ∧ storage.scan r = t
              ∧ storage.where_clause (λ t text, (pretty t ?= text)%string) None "" r
                = true.
Proof.
  apply (ListTargets_page_sorted_and_selected (λ t, pretty t)
           (λ t text, (pretty t ?= text)%string) scenario.three_targets None 2 ""
           (models.mkTargetList [scenario.example_com; scenario.test_com]
              "2000000_t_2000000")).
  vm_compute. reflexivity.
Defined.

(** X17. When the limit (a Go int) is not below the number of rows the WHERE
    clause selects, the page holds every selected target exactly once and
    carries no token; in particular a first call without host filter lists
    every stored target. *)
Theorem ListTargets_complete_page :
  ∀ (formatRFC3339Nano : Z → string) (compare_created_at : Z → string → comparison)
    (s : storage.Storage) (host : option string) (limit : Z) (pageToken : string),
    Z.of_nat (length (storage.matching compare_created_at s host pageToken)) ≤ limit →
    limit < 2 ^ 63 →
    ∃ items,
      storage.ListTargets formatRFC3339Nano compare_created_at s host limit pageToken
      = Some (models.mkTargetList items "")
      ∧ items ≡ₚ storage.scan <$> storage.matching compare_created_at s host pageToken
      ∧ (host = None → pageToken = "" → items ≡ₚ storage.scan <$> storage.targets s).
Proof.
  intros fmt cmp s host limit tok Hlen Hmax. rewrite ListTargets_unfold. simpl.
  rewrite fetched_all by done.
  assert (Hperm : storage.scan <$> merge_sort storage.row_le (storage.matching cmp s host tok)
                  ≡ₚ storage.scan <$> storage.matching cmp s host tok).
  { apply fmap_Permutation, merge_sort_Permutation. }
  rewrite decide_False.
  2: { rewrite (Permutation_length Hperm). rewrite !length_fmap in *. lia. }
  eexists. split; [done|]. split; [done|].
  intros -> ->. rewrite Hperm. unfold storage.matching.
  assert (Hall : ∀ l : list storage.target_row,
            filter (λ r, storage.where_clause cmp None "" r) l = l) by
    (induction l as [|r l IH]; [done|]; rewrite filter_cons_True by done; by f_equal).
  by rewrite Hall.
Qed.

Lemma ListTargets_complete_page_witness :
  ∃ items,
    storage.ListTargets (λ t, pretty t) (λ t text, (pretty t ?= text)%string)
      scenario.three_targets None 10 ""
    = Some (models.mkTargetList items "")
    ∧ items ≡ₚ storage.scan
                 <$> storage.matching (λ t text, (pretty t ?= text)%string)
                       scenario.three_targets None ""
    ∧ (@None string = None → "" = "" →
       items ≡ₚ storage.scan <$> storage.targets scenario.three_targets).
Proof.
  apply (ListTargets_complete_page (λ t, pretty t) (λ t text, (pretty t ?= text)%string)
           scenario.three_targets None 10 "").
  - vm_compute. by intros [=].
  - reflexivity.
Defined.

(** X18. For a limit from 1 up (a Go int below its maximum), a page carries a
    token exactly when the WHERE clause selects more than [limit] rows; the
    page then holds exactly [limit] targets, and the token is the formatted
    created_at of the last one, an underscore and its id. *)
Theorem ListTargets_next_page_token :
  ∀ (formatRFC3339Nano : Z → string) (compare_created_at : Z → string → comparison)
    (s : storage.Storage) (host : option string) (limit : Z) (pageToken : string)
    (page : models.TargetList),
    1 ≤ limit → limit < 2 ^ 63 - 1 →
    storage.ListTargets formatRFC3339Nano compare_created_at s host limit pageToken
    = Some page →
    (models.NextPageToken page ≠ ""
     ↔ limit < Z.of_nat (length (storage.matching compare_created_at s host pageToken)))
    ∧ (models.NextPageToken page ≠ "" →
       Z.of_nat (length (models.Items page)) = limit
       ∧ ∃ t, last (models.Items page) = Some t
              ∧ models.NextPageToken page
                = formatRFC3339Nano (models.CreatedAt t) +:+ "_" +:+ models.ID t).
Proof.
  intros fmt cmp s host limit tok page Hmin Hmax. rewrite ListTargets_unfold. simpl.
  pose proof (fetched_length cmp s host limit tok) as Hlen.
  set (targets := storage.scan <$> storage.fetched cmp s host limit tok) in *.
  assert (Hlen' : length targets
                  = Nat.min (Z.to_nat (limit + 1))
                      (length (storage.matching cmp s host tok))).
  { unfold targets. rewrite length_fmap. apply Hlen. lia. }
  case_decide as Hmore.
  - rewrite option_guard_True by lia. simpl. rewrite decide_True by lia.
    destruct (targets !! Z.to_nat (limit - 1)) as [t|] eqn:Ht; simpl; [|done].
    intros [= <-]. simpl.
    assert (Htok : fmt (models.CreatedAt t) +:+ "_" +:+ models.ID t ≠ "").
    { intros Heq. apply (f_equal String.length) in Heq.
      rewrite !length_app in Heq. simpl in Heq. lia. }
    split; [split; [lia|done]|]. intros _.
    split; [rewrite length_take; lia|].
    exists t. split; [|done].
    rewrite last_lookup, length_take, lookup_take_lt by lia.
    rewrite <- Ht. f_equal. lia.
  - intros [= <-]. simpl. split; [|done]. split; [done|lia].
Qed.

Lemma ListTargets_next_page_token_witness :
  let page := models.mkTargetList [scenario.example_com; scenario.test_com]
                "2000000_t_2000000" in
  (models.NextPageToken page ≠ ""
   ↔ 2 < Z.of_nat (length (storage.matching (λ t text, (pretty t ?= text)%string)
                             scenario.three_targets None "")))
  ∧ (models.NextPageToken page ≠ "" →
     Z.of_nat (length (models.Items page)) = 2
     ∧ ∃ t, last (models.Items page) = Some t
            ∧ models.NextPageToken page
              = pretty (models.CreatedAt t) +:+ "_" +:+ models.ID t).
Proof.
  apply (ListTargets_next_page_token (λ t, pretty t)
           (λ t text, (pretty t ?= text)%string) scenario.three_targets None 2 "").
  - lia.
  - reflexivity.
  - vm_compute. reflexivity.
Defined.

(** X19. A limit of zero or less (a Go int). With a negative limit
    [ListTargets] always panics; with limit 0 it panics as soon as the WHERE
    clause selects a row, and returns the empty page without token when it
    selects none. *)
Theorem ListTargets_nonpositive_limit :
  ∀ (formatRFC3339Nano : Z → string) (compare_created_at : Z → string → comparison)
    (s : storage.Storage) (host : option string) (limit : Z) (pageToken : string),
    - 2 ^ 63 ≤ limit → limit ≤ 0 →
    storage.ListTargets formatRFC3339Nano compare_created_at s host limit pageToken
    = if decide (limit = 0 ∧ storage.matching compare_created_at s host pageToken = [])
      then Some (models.mkTargetList [] "")
      else None.
Proof.
  intros fmt cmp s host limit tok Hmin Hmax. rewrite ListTargets_unfold. simpl.
  assert (Hlen : length (merge_sort storage.row_le (storage.matching cmp s host tok))
                 = length (storage.matching cmp s host tok)).
  { apply Permutation_length, merge_sort_Permutation. }
  unfold storage.fetched. fold (storage.matching cmp s host tok).
  rewrite int_in_range by lia. unfold storage.sql_limit.
  destruct (decide (limit = 0)) as [->|Hneg].
  - rewrite (decide_False (P := 0 + 1 < 0)) by lia.
    change (Z.to_nat (0 + 1)) with 1%nat.
    destruct (merge_sort storage.row_le (storage.matching cmp s host tok))
      as [|r' l']; simpl in *.
    + symmetry in Hlen. apply nil_length_inv in Hlen. by rewrite decide_True.
    + rewrite (decide_False (P := (_ ∧ _))); [done|].
      intros [_ Hnil]. by rewrite Hnil in Hlen.
  - rewrite (decide_False (P := (_ ∧ _))) by (intros [? _]; done).
    rewrite decide_True; [by rewrite option_guard_False by lia|].
    case_decide; rewrite length_fmap; [lia|]. rewrite length_take. lia.
Qed.

Lemma ListTargets_nonpositive_limit_witness :
  storage.ListTargets (λ t, pretty t) (λ t text, (pretty t ?= text)%string)
    scenario.three_targets None 0 ""
  = None.
Proof.
  apply (ListTargets_nonpositive_limit (λ t, pretty t)
           (λ t text, (pretty t ?= text)%string) scenario.three_targets None 0 "");
    by vm_compute.
Defined.

(** ** Package storage: the cursor and the host pattern *)

Section cursor_and_pattern.

Import storage.

Lemma rev_app_app (cur b c : string) :
  String.rev_app cur b +:+ c = String.rev_app cur (b +:+ c).
Proof. revert b. induction cur as [|x cur IH]; intros b; simpl; [done|]. by rewrite IH. Qed.

Lemma rev_cons_app (x : ascii) (cur a : string) :
  String.rev (String x cur) +:+ a = String.rev cur +:+ String x a.
Proof. unfold String.rev. simpl. by rewrite !rev_app_app. Qed.

Lemma rev_app_nil (cur : string) : String.rev cur +:+ "" = String.rev cur.
Proof. unfold String.rev. by rewrite rev_app_app. Qed.

(** Reading a piece without separator up to a separator. *)
Lemma split_go_piece (sep : ascii) (a b cur : string) :
  gostr.count_byte sep a = 0%nat →
  gostr.split_go sep cur (a +:+ String sep b)
  = (String.rev cur +:+ a) :: gostr.split_go sep EmptyString b.
Proof.
  revert cur. induction a as [|x a IH]; intros cur Hnone; simpl in *.
  - rewrite decide_True by done. by rewrite rev_app_nil.
  - destruct (decide (x = sep)); [done|].
    rewrite IH by done. by rewrite rev_cons_app.
Qed.

Lemma split_go_last (sep : ascii) (a cur : string) :
  gostr.count_byte sep a = 0%nat →
  gostr.split_go sep cur a = [String.rev cur +:+ a].
Proof.
  revert cur. induction a as [|x a IH]; intros cur Hnone; simpl in *.
  - by rewrite rev_app_nil.
  - destruct (decide (x = sep)); [done|].
    rewrite IH by done. by rewrite rev_cons_app.
Qed.

Lemma Split1_two_pieces (sep : ascii) (a b : string) :
  gostr.count_byte sep a = 0%nat → gostr.count_byte sep b = 0%nat →
  gostr.Split1 (a +:+ String sep b) sep = [a; b].
Proof.
  intros Ha Hb. unfold gostr.Split1.
  rewrite split_go_piece by done. by rewrite split_go_last by done.
Qed.

(** A byte whose lower-case form is the slash is the slash. *)
Lemma lower_ascii_slash (d : ascii) : gostr.lower_ascii "/" = gostr.lower_ascii d → d = "/"%char.
Proof. destruct d as [[] [] [] [] [] [] [] []]; vm_compute; congruence. Qed.

(** A text matched by a pattern has at least as many slashes as the pattern. *)
Lemma like_slashes (p s : string) :
  like p s = true → (gostr.count_byte "/" p ≤ gostr.count_byte "/" s)%nat.
Proof.
  revert s. induction p as [|c p IH]; intros s; simpl.
  { intros ->%bool_decide_eq_true. done. }
  destruct (decide (c = "%"%char)) as [->|Hpercent].
  - rewrite decide_False by done. simpl.
    induction s as [|d s IHs]; simpl.
    + rewrite orb_false_r. apply IH.
    + intros [Hhere|Hlater]%orb_true_iff.
      * apply IH in Hhere. simpl in Hhere. lia.
      * apply IHs in Hlater. lia.
  - destruct s as [|d s]; [done|].
    intros [Hc Hrest]%andb_true_iff. apply IH in Hrest. simpl.
    destruct (decide (c = "/"%char)) as [->|_]; [|destruct (decide (d = "/"%char)); lia].
    apply orb_true_iff in Hc as [Hc|Hc]; apply bool_decide_eq_true in Hc; [done|].
    apply lower_ascii_slash in Hc. rewrite decide_True by done. lia.
Qed.

End cursor_and_pattern.

(** X20. A token made of a timestamp and an id that contain no underscore is
    decoded as it was built: the WHERE clause is the host condition together
    with the cursor condition [created_at > timestamp OR (created_at =
    timestamp AND id > id)] on exactly that timestamp and that id. *)
Theorem where_clause_decodes_cursor :
  ∀ (compare_created_at : Z → string → comparison) (host : option string)
    (timestamp i : string) (r : storage.target_row),
    gostr.count_byte "_" timestamp = 0%nat →
    gostr.count_byte "_" i = 0%nat →
    storage.where_clause compare_created_at host (timestamp +:+ "_" +:+ i) r
    = storage.where_clause compare_created_at host "" r
      && storage.after_cursor compare_created_at timestamp i r.
Proof.
  intros cmp host ts i r Hts Hi. unfold storage.where_clause.
  rewrite (decide_True (P := "" = "")) by done. rewrite andb_true_r. f_equal.
  rewrite decide_False.
  2: { intros Heq. apply (f_equal String.length) in Heq.
       rewrite !length_app in Heq. simpl in Heq. lia. }
  change (ts +:+ "_" +:+ i) with (ts +:+ String "_" i).
  by rewrite Split1_two_pieces.
Qed.

Lemma where_clause_decodes_cursor_witness :
  storage.where_clause (λ t text, (pretty t ?= text)%string) None
    ("2000000" +:+ "_" +:+ "t2") (storage.mkTargetRow "t3" "u" "c" 3000000)
  = storage.where_clause (λ t text, (pretty t ?= text)%string) None ""
      (storage.mkTargetRow "t3" "u" "c" 3000000)
    && storage.after_cursor (λ t text, (pretty t ?= text)%string) "2000000" "t2"
         (storage.mkTargetRow "t3" "u" "c" 3000000).
Proof.
  apply (where_clause_decodes_cursor (λ t text, (pretty t ?= text)%string) None
           "2000000" "t2"); reflexivity.
Defined.

(** X21. With a host filter, whatever the host, [ListTargets] only returns
    targets whose canonical URL holds at least three slashes: a target whose
    canonical URL is a bare scheme and host is returned for no host. *)
Theorem ListTargets_host_filter_needs_path :
  ∀ (formatRFC3339Nano : Z → string) (compare_created_at : Z → string → comparison)
    (s : storage.Storage) (host : string) (limit : Z) (pageToken : string)
    (page : models.TargetList) (t : models.Target),
    storage.ListTargets formatRFC3339Nano compare_created_at s (Some host) limit pageToken
    = Some page →
    t ∈ models.Items page →
    ∃ r, r ∈ storage.targets s ∧ storage.scan r = t
         ∧ (3 ≤ gostr.count_byte "/" (storage.canonical_url r))%nat.
Proof.
  intros fmt cmp s host limit tok page t. rewrite ListTargets_unfold. simpl.
  assert (Hsel : ∀ t, t ∈ storage.scan <$> storage.fetched cmp s (Some host) limit tok →
                      ∃ r, r ∈ storage.targets s ∧ storage.scan r = t
                           ∧ (3 ≤ gostr.count_byte "/" (storage.canonical_url r))%nat).
  { intros t' (r & -> & Hr)%list_elem_of_fmap.
    destruct (fetched_selected cmp s (Some host) limit tok r Hr) as [Hin Hw].
    exists r. split_and!; [done..|].
    unfold storage.where_clause in Hw. apply andb_true_iff in Hw as [Hlike _].
    apply like_slashes in Hlike. rewrite !count_byte_app in Hlike. simpl in Hlike. lia. }
  set (targets := storage.scan <$> storage.fetched cmp s (Some host) limit tok) in *.
  case_decide as Hmore.
  - destruct (guard (0 ≤ limit)); simpl; [|done].
    destruct (if decide (0 ≤ limit - 1) then _ else _) as [t'|]; simpl; [|done].
    intros [= <-] Hin. simpl in Hin. apply Hsel.
    eapply elem_of_sublist; [done|apply sublist_take].
  - intros [= <-] Hin. by apply Hsel.
Qed.

Lemma ListTargets_host_filter_needs_path_witness :
  ∃ r, r ∈ storage.targets scenario.four_targets
       ∧ storage.scan r = scenario.example_com_docs
       ∧ (3 ≤ gostr.count_byte "/" (storage.canonical_url r))%nat.
Proof.
  apply (ListTargets_host_filter_needs_path (λ t, pretty t)
           (λ t text, (pretty t ?= text)%string) scenario.four_targets "example.com" 10 ""
           (models.mkTargetList [scenario.example_com_docs] "")).
  - vm_compute. reflexivity.
  - apply list_elem_of_singleton. reflexivity.
Defined.

(** ** Package storage: snapshots, histories and maintenance *)

Section queries.

Import storage.

#[global] Instance created_le_total : Total created_le.
Proof. intros a b. unfold created_le. lia. Qed.

#[global] Instance checked_ge_total (timestamp_text : gotime.Time → string) :
  Total (checked_ge timestamp_text).
Proof.
  intros a b. unfold checked_ge.
  destruct (String.leb_total (timestamp_text (models.CheckedAt b.2))
              (timestamp_text (models.CheckedAt a.2))) as [H|H];
    rewrite H; simpl; auto.
Qed.

Lemma filter_snoc_False {A} (P : A → Prop) `{!∀ x, Decision (P x)} (l : list A) (x : A) :
  ¬ P x → filter P (l ++ [x]) = filter P l.
Proof.
  intros Hx. rewrite filter_app, filter_cons_False by done.
  by rewrite filter_nil, app_nil_r.
Qed.

Lemma filter_snoc_True {A} (P : A → Prop) `{!∀ x, Decision (P x)} (l : list A) (x : A) :
  P x → filter P (l ++ [x]) = filter P l ++ [x].
Proof. intros Hx. by rewrite filter_app, filter_cons_True by done. Qed.

End queries.

(** X22. The snapshot of [GetAllTargets] holds every stored target exactly
    once, in ascending order of created_at. *)
Theorem GetAllTargets_snapshot :
  ∀ s : storage.Storage,
    storage.GetAllTargets s ≡ₚ storage.scan <$> storage.targets s
    ∧ Sorted (λ a b, models.CreatedAt a ≤ models.CreatedAt b) (storage.GetAllTargets s).
Proof.
  intros s. unfold storage.GetAllTargets. split.
  - apply fmap_Permutation, merge_sort_Permutation.
  - apply (Sorted_fmap _ storage.created_le); [done|].
    apply Sorted_merge_sort, _.
Qed.

(** X23. Whatever target a call of [CreateTarget] returns, new or not, the
    snapshot taken after the call contains it. *)
Theorem CreateTarget_then_GetAllTargets :
  ∀ (s s' : storage.Storage) (unix_nano now : Z) (originalURL canonicalURL : string)
    (idempotencyKey : option string) (t : models.Target) (isNew : bool),
    storage.CreateTarget s unix_nano now originalURL canonicalURL idempotencyKey
    = (s', storage.Ok (t, isNew)) →
    t ∈ storage.GetAllTargets s'.
Proof.
  intros s s' n now u c key t isNew Hcall.
  pose proof (CreateTarget_outcomes_aux s n now u c key) as [_ Hout].
  rewrite Hcall in Hout. simpl in Hout.
  unfold storage.GetAllTargets. rewrite merge_sort_Permutation.
  destruct isNew.
  - destruct Hout as (_ & -> & ->). apply list_elem_of_fmap.
    eexists. split; [|apply list_elem_of_In, in_app_iff; right; by left]. done.
  - destruct Hout as (-> & r & Hr & <-). by apply list_elem_of_fmap_2.
Qed.

Lemma CreateTarget_then_GetAllTargets_witness :
  scenario.a_com ∈ storage.GetAllTargets scenario.after_a_com.
Proof.
  apply (CreateTarget_then_GetAllTargets storage.empty scenario.after_a_com 1000 1000
           "https://a.com" "https://a.com" (Some "k1") scenario.a_com true).
  vm_compute. reflexivity.
Defined.

(** X24. The history [GetCheckResults] returns is in descending order of
    the texts stored for checked_at; unless the limit is negative it holds
    at most [limit] results; each result is one saved for the target asked
    for whose stored text is not below the text of [since], when [since] is
    given; and when the limit does not cut, the history holds every such
    result once. The engine compares the texts, each written on the clock of
    the zone its time was made in: it is by that reading, not by the
    instant, that a result is ordered and selected. *)
Theorem GetCheckResults_history :
  ∀ (timestamp_text : gotime.Time → string) (s : storage.Storage) (targetID : string)
    (since : option gotime.Time) (limit : Z),
    let items :=
      models.ResultItems (storage.GetCheckResults timestamp_text s targetID since limit) in
    let selected :=
      filter (λ row, storage.result_selected timestamp_text targetID since row)
        (storage.check_results s) in
    Sorted (λ a b, String.leb (timestamp_text (models.CheckedAt b))
                     (timestamp_text (models.CheckedAt a))) items
    ∧ (limit < 0 ∨ Z.of_nat (length items) ≤ limit)
    ∧ (∀ r, r ∈ items →
            (targetID, r) ∈ storage.check_results s
            ∧ match since with
              | Some t => String.leb (timestamp_text t)
                            (timestamp_text (models.CheckedAt r))
              | None => True
              end)
    ∧ (limit < 0 ∨ Z.of_nat (length selected) ≤ limit → items ≡ₚ snd <$> selected).
Proof.
  intros text s targetID since limit. unfold storage.GetCheckResults. simpl.
  split_and!.
  - apply (Sorted_fmap _ (storage.checked_ge text)); [done|].
    apply Sorted_sql_limit, Sorted_merge_sort, _.
  - unfold storage.sql_limit. case_decide; [by left|right].
    rewrite length_fmap, length_take. lia.
  - intros r ([tid r'] & -> & Hin)%list_elem_of_fmap. simpl.
    eapply elem_of_sublist in Hin; [|apply sql_limit_sublist].
    rewrite merge_sort_Permutation in Hin.
    apply list_elem_of_filter in Hin as [Hsel Hin].
    unfold storage.result_selected in Hsel. simpl in Hsel.
    apply andb_True in Hsel as [Htid Hsince].
    apply bool_decide_unpack in Htid as ->. split; [done|].
    destruct since; done.
  - intros Hall. apply fmap_Permutation.
    unfold storage.sql_limit. case_decide as Hneg; [apply merge_sort_Permutation|].
    rewrite take_ge; [apply merge_sort_Permutation|].
    rewrite merge_sort_Permutation. lia.
Qed.

(** X25. Saving a result for a target leaves the history of every other
    target as it was, and adds exactly that result to the unlimited history
    of the target. *)
Theorem SaveCheckResult_then_GetCheckResults :
  ∀ (timestamp_text : gotime.Time → string) (s : storage.Storage) (targetID : string)
    (r : models.CheckResult),
    let s' := storage.SaveCheckResult s targetID r in
    (∀ (other : string) (since : option gotime.Time) (limit : Z),
       other ≠ targetID →
       storage.GetCheckResults timestamp_text s' other since limit
       = storage.GetCheckResults timestamp_text s other since limit)
    ∧ (∀ limit : Z,
       limit < 0 →
       models.ResultItems (storage.GetCheckResults timestamp_text s' targetID None limit)
       ≡ₚ r :: models.ResultItems
                 (storage.GetCheckResults timestamp_text s targetID None limit)).
Proof.
  intros text s targetID r s'. split.
  - intros other since limit Hne. unfold storage.GetCheckResults, s'. simpl.
    rewrite filter_snoc_False; [done|].
    unfold storage.result_selected. simpl.
    rewrite bool_decide_eq_false_2 by congruence. simpl. tauto.
  - intros limit Hneg. unfold storage.GetCheckResults, s', storage.sql_limit. simpl.
    rewrite !decide_True by done.
    rewrite filter_snoc_True.
    2: { unfold storage.result_selected. simpl. by rewrite bool_decide_eq_true_2. }
    rewrite !merge_sort_Permutation, fmap_app. simpl.
    by rewrite <- Permutation_cons_append.
Qed.

Lemma SaveCheckResult_then_GetCheckResults_witness :
  storage.GetCheckResults sqlite3.timestamp_text
    (storage.SaveCheckResult scenario.after_a_com "t_1000"
       (models.mkCheckResult (gotime.utc 1600) (Some 200) 12 None)) "t_2000" None 50
  = storage.GetCheckResults sqlite3.timestamp_text scenario.after_a_com "t_2000" None 50
  ∧ models.ResultItems
      (storage.GetCheckResults sqlite3.timestamp_text
         (storage.SaveCheckResult scenario.after_a_com "t_1000"
            (models.mkCheckResult (gotime.utc 1600) (Some 200) 12 None)) "t_1000" None (-1))
    ≡ₚ models.mkCheckResult (gotime.utc 1600) (Some 200) 12 None
       :: models.ResultItems
            (storage.GetCheckResults sqlite3.timestamp_text scenario.after_a_com
               "t_1000" None (-1)).
Proof.
  destruct (SaveCheckResult_then_GetCheckResults sqlite3.timestamp_text
              scenario.after_a_com "t_1000"
              (models.mkCheckResult (gotime.utc 1600) (Some 200) 12 None))
    as [Hother Hsame].
  split.
  - apply Hother. discriminate.
  - apply Hsame. reflexivity.
Defined.

(** X26. [CleanupOldIdempotencyKeys] touches neither targets nor check
    results, adds no key and rebinds none, and removes exactly the keys
    whose stored text, written in UTC, is below the text of the cutoff,
    written in the zone of the cutoff. *)
Theorem CleanupOldIdempotencyKeys_effect :
  ∀ (timestamp_text : gotime.Time → string) (s : storage.Storage)
    (olderThan : gotime.Time),
    let s' := storage.CleanupOldIdempotencyKeys timestamp_text s olderThan in
    storage.targets s' = storage.targets s
    ∧ storage.check_results s' = storage.check_results s
    ∧ ∀ k, storage.idempotency_keys s' !! k
           = match storage.idempotency_keys s !! k with
             | Some row =>
                 if String.ltb (timestamp_text (gotime.utc (storage.key_created_at row)))
                      (timestamp_text olderThan)
                 then None else Some row
             | None => None
             end.
Proof.
  intros text s cutoff s'. split_and!; [done..|].
  intros k. unfold s', storage.CleanupOldIdempotencyKeys. simpl.
  rewrite map_lookup_filter.
  destruct (storage.idempotency_keys s !! k) as [row|]; simpl; [|done].
  destruct (String.ltb _ _) eqn:Hlt.
  - rewrite option_guard_False; [done|]. simpl. tauto.
  - rewrite option_guard_True; [done|]. simpl. tauto.
Qed.

(** X27. After the maintenance call has removed a key, the key protects
    nothing: a [CreateTarget] with that key for an unregistered URL, with a
    fresh identifier and URL, creates a new target and binds the key to
    it. *)
Theorem CreateTarget_after_cleanup :
  ∀ (timestamp_text : gotime.Time → string) (s : storage.Storage)
    (olderThan : gotime.Time) (k : string) (row : storage.key_row)
    (unix_nano now : Z) (originalURL canonicalURL : string),
    storage.idempotency_keys s !! k = Some row →
    String.ltb (timestamp_text (gotime.utc (storage.key_created_at row)))
      (timestamp_text olderThan) = true →
    storage.select_by_canonical s canonicalURL = None →
    (∀ r, r ∈ storage.targets s →
          storage.id r ≠ storage.generateID "t_" unix_nano ∧ storage.url r ≠ originalURL) →
    let out := storage.CreateTarget
                 (storage.CleanupOldIdempotencyKeys timestamp_text s olderThan)
                 unix_nano now originalURL canonicalURL (Some k) in
    out.2 = storage.Ok (models.mkTarget (storage.generateID "t_" unix_nano) originalURL now,
                        true)
    ∧ storage.idempotency_keys out.1 !! k
      = Some (storage.mkKeyRow (storage.generateID "t_" unix_nano) now).
Proof.
  intros text s cutoff k row n now u c Hk Hold Hcan Hfresh.
  assert (Hk' : storage.idempotency_keys
                  (storage.CleanupOldIdempotencyKeys text s cutoff) !! k = None).
  { simpl. apply map_lookup_filter_None. right. intros row' Hrow'.
    rewrite Hk in Hrow'. simplify_eq. simpl. rewrite Hold. simpl. tauto. }
  assert (Htargets : storage.targets (storage.CleanupOldIdempotencyKeys text s cutoff)
                     = storage.targets s) by done.
  set (s0 := storage.CleanupOldIdempotencyKeys text s cutoff) in *. clearbody s0.
  assert (Hcan' : storage.select_by_canonical s0 c = None).
  { unfold storage.select_by_canonical in *. by rewrite Htargets. }
  unfold storage.CreateTarget. rewrite Hcan'. simpl. rewrite Hk'.
  unfold storage.insert_target. rewrite decide_False.
  2: { rewrite Htargets. intros (r & Hr & Hclash)%Exists_exists. simpl in Hclash.
       destruct (Hfresh r Hr) as [Hid Hurl].
       destruct Hclash as [?|[?|Hc]]; [done..|].
       unfold storage.select_by_canonical in Hcan.
       destruct (list_find _ (storage.targets s)) as [|] eqn:Hfind; [done|].
       apply list_find_None in Hfind. rewrite Forall_forall in Hfind.
       by apply (Hfind r Hr). }
  unfold storage.insert_key. simpl. rewrite Hk'. simpl.
  split; [done|]. by rewrite lookup_insert_eq.
Qed.

Lemma CreateTarget_after_cleanup_witness :
  let out := storage.CreateTarget
               (storage.CleanupOldIdempotencyKeys sqlite3.timestamp_text
                  scenario.after_a_com (gotime.utc 5000))
               6000 6000 "https://b.com" "https://b.com" (Some "k1") in
  out.2 = storage.Ok (models.mkTarget "t_6000" "https://b.com" 6000, true)
  ∧ storage.idempotency_keys out.1 !! "k1" = Some (storage.mkKeyRow "t_6000" 6000).
Proof.
  apply (CreateTarget_after_cleanup sqlite3.timestamp_text scenario.after_a_com
           (gotime.utc 5000) "k1"
           (storage.mkKeyRow "t_1000" 1000) 6000 6000 "https://b.com" "https://b.com").
  - vm_compute. reflexivity.
  - vm_compute. reflexivity.
  - vm_compute. reflexivity.
  - intros r Hr. apply list_elem_of_singleton in Hr as ->. split; discriminate.
Defined.

(** The zone of a time decides what the engine does with it. A key recorded
    at 09:00 UTC is an hour older than the cutoff 10:00 UTC. Given in UTC the
    cutoff removes the key; the same instant given in the zone two hours
    west of UTC, whose clock reads 08:00, keeps it. Likewise a result
    checked at 09:00 UTC is returned for [since] 08:00 UTC, and is not when
    the same instant is given as 10:00 in the zone two hours east. *)
Lemma timestamps_compare_as_texts :
  storage.idempotency_keys
    (storage.CleanupOldIdempotencyKeys sqlite3.timestamp_text scenario.at_nine
       (gotime.mkTime scenario.ten 0)) !! "k1" = None
  ∧ storage.idempotency_keys
      (storage.CleanupOldIdempotencyKeys sqlite3.timestamp_text scenario.at_nine
         (gotime.mkTime scenario.ten (-7200))) !! "k1"
    = Some (storage.mkKeyRow (storage.generateID "t_" scenario.nine) scenario.nine)
  ∧ models.ResultItems
      (storage.GetCheckResults sqlite3.timestamp_text scenario.at_nine
         (storage.generateID "t_" scenario.nine) (Some (gotime.mkTime scenario.eight 0)) 10)
    = [models.mkCheckResult (gotime.utc scenario.nine) (Some 200) 12 None]
  ∧ models.ResultItems
      (storage.GetCheckResults sqlite3.timestamp_text scenario.at_nine
         (storage.generateID "t_" scenario.nine) (Some (gotime.mkTime scenario.eight 7200))
         10)
    = [].
Proof. by vm_compute. Qed.

(** ** Package api: the handlers *)

Section api_facts.

Context {lib : neturl.Lib}.
Variable Atoi : string → option Z.

Lemma read_limit_range (l : string) (default maximum : Z) :
  1 ≤ default ≤ maximum →
  1 ≤ api.read_limit Atoi l default maximum ≤ maximum
  ∧ (l = "" → api.read_limit Atoi l default maximum = default).
Proof.
  intros Hd. unfold api.read_limit. split.
  - case_decide; [lia|]. destruct (Atoi l) as [parsed|]; [|lia]. case_decide; lia.
  - intros ->. done.
Qed.

End api_facts.

(** X28. The responses of the handler of [POST /v1/targets]. A failure has
    status 400 or 500 and leaves the store as it was. A success has status
    201 exactly when a target was created, its row - built from the id, URL
    and time of the response - then being the one row added; with status 200
    no target is added and the response describes a target that was stored
    before the call. *)
Theorem api_CreateTarget_responses :
  ∀ (lib : neturl.Lib) (store : storage.Storage) (unix_nano now : Z)
    (body : option models.CreateTargetRequest) (idempotency_key_header : string),
    let out := api.CreateTarget store unix_nano now body idempotency_key_header in
    match out.2 with
    | api.Failure status _ => out.1 = store ∧ (status = 400 ∨ status = 500)
    | api.Json status b =>
        (status = 201
         ∧ ∃ canonicalURL,
             storage.targets out.1
             = storage.targets store
               ++ [storage.mkTargetRow (models.ResponseID b) (models.ResponseURL b)
                     canonicalURL (models.ResponseCreatedAt b)])
        ∨ (status = 200
           ∧ storage.targets out.1 = storage.targets store
           ∧ ∃ r, r ∈ storage.targets store
                  ∧ storage.id r = models.ResponseID b
                  ∧ storage.url r = models.ResponseURL b
                  ∧ storage.created_at r = models.ResponseCreatedAt b)
    end.
Proof.
  intros lib store n now body header. unfold api.CreateTarget.
  destruct body as [req|]; simpl; [|auto].
  case_decide; simpl; [auto|].
  destruct (storage.CanonicalizeURL _) as [c|err]; simpl; [|auto].
  destruct (neturl.Parse c) as [parsed|err]; simpl; [|auto].
  destruct (_ && _); simpl; [auto|].
  set (key := if decide (header = "") then None else Some header).
  pose proof (CreateTarget_outcomes_aux store n now (models.RequestURL req) c key)
    as [_ Hout].
  destruct (storage.CreateTarget store n now (models.RequestURL req) c key)
    as [store' [[t isNew]|err]]; simpl in *; [|auto].
  destruct isNew.
  - left. destruct Hout as (_ & -> & ->). split; [done|]. by exists c.
  - right. destruct Hout as (-> & r & Hr & <-). split; [done|]. split; [done|].
    by exists r.
Qed.

(** X29. Registering through the API twice: when two submitted URLs have
    the same canonical form, whose scheme is http or https, and the first
    request is answered with 201, then the second request - whatever its
    idempotency key and the time - is answered with 200 and the same id, URL
    and created_at, and adds no target. *)
Theorem api_CreateTarget_duplicate :
  ∀ (lib : neturl.Lib) (store store1 : storage.Storage) (unix_nano1 now1 : Z)
    (u1 u2 canonicalURL : string) (parsed : neturl.URL) (header1 header2 : string)
    (b : models.CreateTargetResponse) (unix_nano2 now2 : Z),
    u1 ≠ "" → u2 ≠ "" →
    storage.CanonicalizeURL u1 = storage.Ok canonicalURL →
    storage.CanonicalizeURL u2 = storage.Ok canonicalURL →
    neturl.Parse canonicalURL = inl parsed →
    neturl.Scheme parsed = "http" ∨ neturl.Scheme parsed = "https" →
    api.CreateTarget store unix_nano1 now1 (Some (models.mkCreateTargetRequest u1)) header1
    = (store1, api.Json 201 b) →
    let out := api.CreateTarget store1 unix_nano2 now2
                 (Some (models.mkCreateTargetRequest u2)) header2 in
    out.2 = api.Json 200 b ∧ storage.targets out.1 = storage.targets store1.
Proof.
  intros lib store store1 n1 now1 u1 u2 c parsed h1 h2 b n2 now2
    Hu1 Hu2 Hc1 Hc2 Hparse Hscheme.
  assert (Hok : bool_decide (neturl.Scheme parsed ≠ "http")
                && bool_decide (neturl.Scheme parsed ≠ "https") = false).
  { destruct Hscheme as [-> | ->]; reflexivity. }
  unfold api.CreateTarget. simpl.
  rewrite !decide_False by done. rewrite Hc1, Hc2, Hparse, Hok.
  set (key1 := if decide (h1 = "") then None else Some h1).
  set (key2 := if decide (h2 = "") then None else Some h2).
  destruct (storage.CreateTarget store n1 now1 u1 c key1)
    as [s1 [[t isNew]|err]] eqn:Hfirst; [|done].
  destruct isNew; [|done]. intros [= <- <-].
  destruct (CreateTarget_twice_aux store s1 n1 now1 u1 c key1 t n2 now2 u2 key2 Hfirst)
    as [Hres Htargets].
  destruct (storage.CreateTarget s1 n2 now2 u2 c key2) as [s2 res]. simpl in *.
  rewrite Hres. by rewrite (decide_False (P := u2 = "")) by done.
Qed.

Lemma api_CreateTarget_duplicate_witness :
  let first := api.CreateTarget (lib := urlmodel.lib) storage.empty 1000 1000
                 (Some (models.mkCreateTargetRequest "https://Example.Com/path/")) "" in
  let out := api.CreateTarget (lib := urlmodel.lib) first.1 2000 2000
               (Some (models.mkCreateTargetRequest "HTTPS://example.com:443/path")) "k7" in
  out.2 = api.Json 200
            (models.mkCreateTargetResponse "t_1000" "https://Example.Com/path/" 1000)
  ∧ storage.targets out.1 = storage.targets first.1.
Proof.
  apply (api_CreateTarget_duplicate urlmodel.lib storage.empty _ 1000 1000
           "https://Example.Com/path/" "HTTPS://example.com:443/path"
           "https://example.com/path"
           (neturl.mkURL "https" "" None "example.com" "/path" "" false false "" "" "")
           "" "k7").
  - discriminate.
  - discriminate.
  - reflexivity.
  - reflexivity.
  - reflexivity.
  - by right.
  - vm_compute. reflexivity.
Defined.

(** X30. The list handlers never hand the store a limit outside their
    bounds, whatever the text of the [limit] parameter and whatever
    [strconv.Atoi] makes of it. So the handler of [GET /v1/targets] never
    panics and answers 200 with at most 100 targets, at most 10 when the
    parameter is absent; and the handler of the results answers with at
    most 1000 results, at most 50 when the parameter is absent. *)
Theorem api_list_handlers_bounds :
  ∀ (Atoi : string → option Z) (parseRFC3339 : string → option gotime.Time)
    (timestamp_text : gotime.Time → string)
    (formatRFC3339Nano : Z → string) (compare_created_at : Z → string → comparison)
    (store : storage.Storage) (host limit page_token target_id since : string),
    (∃ page,
       api.ListTargets Atoi formatRFC3339Nano compare_created_at store host limit page_token
       = Some (api.Json 200 page)
       ∧ (length (models.Items page) ≤ 100)%nat
       ∧ (limit = "" → (length (models.Items page) ≤ 10)%nat))
    ∧ match api.GetCheckResults Atoi parseRFC3339 timestamp_text store target_id since
              limit with
      | api.Json status results =>
          status = 200
          ∧ (length (models.ResultItems results) ≤ 1000)%nat
          ∧ (limit = "" → (length (models.ResultItems results) ≤ 50)%nat)
      | api.Failure status _ => status = 400
      end.
Proof.
  intros Atoi parse text fmt cmp store host limit tok tid since. split.
  - unfold api.ListTargets.
    destruct (read_limit_range Atoi limit 10 100) as [Hrange Hdefault]; [lia|].
    destruct (ListTargets_page_size_aux fmt cmp store
                (if decide (host = "") then None else Some host)
                (api.read_limit Atoi limit 10 100) tok) as (page & -> & Hlen); [lia|].
    simpl. exists page. split; [done|]. split; [lia|].
    intros Hl. rewrite (Hdefault Hl) in Hlen. lia.
  - unfold api.GetCheckResults.
    destruct (read_limit_range Atoi limit 50 1000) as [Hrange Hdefault]; [lia|].
    assert (Hlen : ∀ since',
              (length (models.ResultItems
                         (storage.GetCheckResults text store tid since'
                            (api.read_limit Atoi limit 50 1000)))
               ≤ Z.to_nat (api.read_limit Atoi limit 50 1000))%nat).
    { intros since'. unfold storage.GetCheckResults, storage.sql_limit. simpl.
      rewrite decide_False by lia. rewrite length_fmap, length_take. lia. }
    assert (Hjson : ∀ since',
              200 = 200
              ∧ (length (models.ResultItems
                           (storage.GetCheckResults text store tid since'
                              (api.read_limit Atoi limit 50 1000))) ≤ 1000)%nat
              ∧ (limit = "" →
                 (length (models.ResultItems
                            (storage.GetCheckResults text store tid since'
                               (api.read_limit Atoi limit 50 1000))) ≤ 50)%nat)).
    { intros since'. split; [done|]. split.
      - etrans; [apply Hlen|lia].
      - intros Hl. etrans; [apply Hlen|]. rewrite (Hdefault Hl). lia. }
    case_decide; [done|].
    case_decide; [apply Hjson|]. destruct (parse since); [apply Hjson|done].
Qed.
